(** * ASVspoof-pytorch: [model_main.py]

    A shallow embedding of the training / evaluation driver
    [asvspoof2019-master/model_main.py] and the properties of it that the
    specification states.

    Conventions of the embedding.
    - A Python [int] is a [Z]; a Python [float] is an exact rational [Q]
      (no rounding is modelled); a [str] is a [string].
    - A one-dimensional array is a [list]; a two-dimensional array is the
      list of its rows.
    - A Python computation that may raise is a [result]: [Ok v] when it
      returns [v], [Raise e] when the exception [e] escapes.
    - The directory tree the script works in is the [gset string] of the
      paths that exist. *)

From Stdlib Require Import ZArith QArith Qround Lia List String Ascii.
From Stdlib Require Import DecimalString.
From stdpp Require Import base option list gmap sets strings.

Open Scope string_scope.
Open Scope list_scope.
Open Scope Z_scope.

(** ** Exceptions and results *)

Inductive pyexn : Type :=
  | ZeroDivisionError
  | ValueError
  | NameError (name : string)
  | AssertionError (msg : string)
  | KeyError
  | FileNotFoundError (path : string)
  | SystemExit (code : Z)
  | OtherError (what : string).

(** The class name Python reports for an exception. *)
Definition exn_name (e : pyexn) : string :=
  match e with
  | ZeroDivisionError => "ZeroDivisionError"
  | ValueError => "ValueError"
  | NameError _ => "NameError"
  | AssertionError _ => "AssertionError"
  | KeyError => "KeyError"
  | FileNotFoundError _ => "FileNotFoundError"
  | SystemExit _ => "SystemExit"
  | OtherError what => what
  end.

Inductive result (A : Type) : Type :=
  | Ok (a : A)
  | Raise (e : pyexn).
Arguments Ok {A} a.
Arguments Raise {A} e.

Definition rbind {A B : Type} (r : result A) (k : A -> result B) : result B :=
  match r with
  | Ok a => k a
  | Raise e => Raise e
  end.

Notation "'let*' x ':=' r 'in' k" := (rbind r (fun x => k))
  (at level 10, x pattern, r at level 100, k at level 200).

(** ** Python and NumPy primitives used by [pad] *)

(** [a / b] on two ints: true division, a float; raises on a zero divisor. *)
Definition py_truediv (a b : Z) : result Q :=
  if b =? 0 then Raise ZeroDivisionError
  else Ok (inject_Z a / inject_Z b)%Q.

(** Integer part of a float, toward zero: how an integer index array is
    filled from a Python float scalar. *)
Definition Qtrunc (q : Q) : Z := Z.quot (Qnum q) (Zpos (Qden q)).

(** [x[:stop]]: a negative [stop] counts from the end. *)
Definition py_slice_to {A : Type} (x : list A) (stop : Z) : list A :=
  if 0 <=? stop then take (Z.to_nat stop) x
  else take (Z.to_nat (Z.of_nat (length x) + stop)) x.

(** [np.repeat(x, k)] for a count [k] already an integer: every element
    repeated [k] times in place, [[a; b]] with 2 giving [[a; a; b; b]]. *)
Fixpoint repeat_each {A : Type} (k : nat) (x : list A) : list A :=
  match x with
  | [] => []
  | a :: x' => replicate k a ++ repeat_each k x'
  end.

(** [np.repeat(x, repeats)] with a Python float as the count: the count
    becomes an integer by truncation, and a negative one is refused. *)
Definition np_repeat {A : Type} (x : list A) (repeats : Q) : result (list A) :=
  let k := Qtrunc repeats in
  if k <? 0 then Raise ValueError
  else Ok (repeat_each (Z.to_nat k) x).

(** ** [pad] (lines 52-60) *)

Definition default_max_len : Z := 64000.

Definition pad {A : Type} (x : list A) (max_len : Z) : result (list A) :=
  let x_len := Z.of_nat (length x) in
  if max_len <=? x_len then Ok (py_slice_to x max_len)
  else
    (* need to pad *)
    let* q := py_truediv max_len x_len in
    let num_repeats := (q + 1)%Q in
    let* x_repeat := np_repeat x num_repeats in
    let padded_x := py_slice_to x_repeat max_len in
    Ok padded_x.

(** The construction the specification words describe for a short input:
    repeat factor [ceil(target_length / len) + 1], then truncation. *)
Definition spec_repeat_factor (target_length : Z) (len : nat) : Z :=
  Qceiling (inject_Z target_length / inject_Z (Z.of_nat len))%Q + 1.

Definition spec_fit_short {A : Type} (x : list A) (target_length : Z) : list A :=
  take (Z.to_nat target_length)
       (repeat_each (Z.to_nat (spec_repeat_factor target_length (length x))) x).


(** ** The driver script (lines 175-304)

    The script runs against a file system and a console; both are part of
    the state so that what is left behind after an exception can be
    stated. *)

Record state : Type := mkState {
  fs : gset string;            (* the paths that exist *)
  stdout : list string         (* the lines printed so far *)
}.

(** A statement of the script: it transforms the state and either returns
    or raises; the state reached is kept in both cases. *)
Definition M (A : Type) : Type := state -> result A * state.

Definition ret {A : Type} (a : A) : M A := fun s => (Ok a, s).

Definition raise {A : Type} (e : pyexn) : M A := fun s => (Raise e, s).

Definition bind {A B : Type} (m : M A) (k : A -> M B) : M B :=
  fun s =>
    match m s with
    | (Ok a, s') => k a s'
    | (Raise e, s') => (Raise e, s')
    end.

Notation "x <- m ;; k" := (bind m (fun x => k))
  (at level 100, m at next level, right associativity).
Notation "m ;; k" := (bind m (fun _ => k))
  (at level 100, right associativity).

(** [try: body except: handler], a bare [except] clause: every exception
    is caught. *)
Definition try_except (body handler : M unit) : M unit :=
  fun s =>
    match body s with
    | (Ok a, s') => (Ok a, s')
    | (Raise _, s') => handler s'
    end.

(** The outcome of a call into a collaborator that is not part of this
    file (data set, model, checkpoint loading): [None] when it returns,
    [Some e] when it raises [e]. *)
Definition external (outcome : option pyexn) : M unit :=
  match outcome with
  | None => ret tt
  | Some e => raise e
  end.

Definition print (line : string) : M unit :=
  fun s => (Ok tt, mkState (fs s) (stdout s ++ [line])).

Definition py_assert (cond : bool) (msg : string) : M unit :=
  if cond then ret tt else raise (AssertionError msg).

(** *** Paths *)

(** The part of a path before its last ['/'] when it has one. *)
Fixpoint dirname_aux (p : string) : option string :=
  match p with
  | EmptyString => None
  | String c rest =>
      match dirname_aux rest with
      | Some d => Some (String c d)
      | None => if Ascii.eqb c "/" then Some EmptyString else None
      end
  end.

(** [os.path.dirname] on a relative path; [""] is the working directory. *)
Definition dirname (p : string) : string := default "" (dirname_aux p).

(** [os.path.join(a, b)] for a relative [b]. *)
Definition path_join (a b : string) : string := a +:+ "/" +:+ b.

(** [q] is [p] or lies beneath the directory [p]. *)
Definition under (p q : string) : bool :=
  String.eqb q p || String.prefix (p +:+ "/") q.

(** The directories on the way to [pre ++ rest], itself included. *)
Fixpoint ancestors_aux (pre rest : string) : list string :=
  match rest with
  | EmptyString => [pre]
  | String c r =>
      (if Ascii.eqb c "/" then [pre] else [])
        ++ ancestors_aux (pre +:+ String c EmptyString) r
  end.

Definition ancestors (p : string) : list string := ancestors_aux "" p.

Definition dir_exists (p : string) (s : state) : bool :=
  String.eqb p "" || bool_decide (p ∈ fs s).

(** [os.path.exists] *)
Definition path_exists (p : string) : M bool :=
  fun s => (Ok (bool_decide (p ∈ fs s)), s).

(** [os.mkdir]: the parent has to exist and the path must not. *)
Definition mkdir (p : string) : M unit :=
  fun s =>
    if bool_decide (p ∈ fs s) then (Raise (OtherError "FileExistsError"), s)
    else if dir_exists (dirname p) s
         then (Ok tt, mkState ({[ p ]} ∪ fs s) (stdout s))
         else (Raise (FileNotFoundError p), s).

(** Creation of a directory with the missing ones on the way to it, which
    is what constructing a [SummaryWriter] does with its log directory. *)
Definition makedirs (p : string) : M unit :=
  fun s => (Ok tt, mkState (list_to_set (ancestors p) ∪ fs s) (stdout s)).

(** Opening a file for writing: the empty path names no file, and the
    file is created in an existing directory. The tree does not tell files
    from directories: a path that exists already is taken to be a file that
    can be written over. *)
Definition open_w (p : string) : M unit :=
  fun s =>
    if String.eqb p "" then (Raise (FileNotFoundError p), s)
    else if dir_exists (dirname p) s
    then (Ok tt, mkState ({[ p ]} ∪ fs s) (stdout s))
    else (Raise (FileNotFoundError p), s).

(** [shutil.rmtree]: the directory and everything beneath it. *)
Definition rmtree (p : string) : M unit :=
  fun s =>
    if bool_decide (p ∈ fs s)
    then (Ok tt, mkState (filter (fun q => under p q = false) (fs s)) (stdout s))
    else (Raise (FileNotFoundError p), s).

(** *** Command line *)

Record Args : Type := mkArgs {
  arg_eval : bool;                 (* --eval *)
  model_name : string;             (* --model_name, default resnet18 *)
  model_path : option string;      (* --model_path, default None *)
  eval_output : option string;     (* --eval_output, default None *)
  batch_size : Z;                  (* --batch_size, default 30 *)
  num_epochs : Z;                  (* --num_epochs, default 100 *)
  lr : Q;                          (* --lr, default 0.0001 *)
  comment : option string;         (* --comment, default None *)
  track : string;                  (* --track, default physical *)
  features : string;               (* --features, default spect *)
  is_eval : bool;                  (* --is_eval *)
  eval_part : Z                    (* --eval_part, default 0 *)
}.

Definition str_int (z : Z) : string := NilZero.string_of_int (Z.to_int z).

(** Truth value of an optional string: [None] and the empty string are
    false. *)
Definition truthy (o : option string) : bool :=
  match o with
  | Some s => negb (String.eqb s "")
  | None => false
  end.

Definition is_not_None {A : Type} (o : option A) : bool :=
  match o with Some _ => true | None => false end.

Definition str_in (s : string) (l : list string) : bool :=
  existsb (String.eqb s) l.
Arguments str_in : simpl never.

Inductive model_class : Type :=
  | MFCCModel | SpectrogramModel | CQCCModel
  | resnet18 | mobilenet_v2 | se_resnet50 | se_resnet20.

(** What the script obtains from outside this file. *)
Record World : Type := mkWorld {
  repr_float : Q -> string;              (* the text of a float under format *)
  repr_args : Args -> string;            (* the text of the argument namespace *)
  device : string;                       (* cuda or cpu *)
  dev_set_ctor : option pyexn;           (* data_utils.ASVDataset(...) and the
                                            DataLoader on it, lines 252-258 *)
  model_ctor : model_class -> option pyexn;
                                         (* model_cls(num_classes=2).to(device) *)
  load_checkpoint : string -> option pyexn;  (* torch.load, load_state_dict *)
  eval_file : option pyexn;              (* the scoring pass of --eval *)
  train_set_ctor : option pyexn;         (* data_utils.MyASVDataset(...) and
                                            its DataLoader, lines 272-279 *)
  epoch_body : nat -> option pyexn       (* train_epoch, evaluate_accuracy and
                                            the logging of one epoch *)
}.

(** Lines 211-216. *)
Definition model_tag (w : World) (args : Args) : string :=
  let tag :=
    "model_" +:+ track args +:+ "_" +:+ features args +:+ "_"
      +:+ model_name args +:+ "_" +:+ str_int (num_epochs args) +:+ "_"
      +:+ str_int (batch_size args) +:+ "_" +:+ repr_float w (lr args) in
  match comment args with
  | Some c => if truthy (Some c) then tag +:+ "_" +:+ c else tag
  | None => tag
  end.

Definition model_save_path (w : World) (args : Args) : string :=
  path_join "models" (model_tag w args).

Definition log_dir (w : World) (args : Args) : string :=
  "logs/" +:+ model_tag w args.

Inductive feature_fn : Type :=
  | compute_mfcc_feats_fn
  | get_log_spectrum_fn
  | no_feature_fn.           (* None: cqcc is extracted outside *)

(** Lines 223-228; [None] when no branch assigns the name. *)
Definition select_feature_fn (features : string) : option feature_fn :=
  if String.eqb features "mfcc" then Some compute_mfcc_feats_fn
  else if String.eqb features "spect" then Some get_log_spectrum_fn
  else if String.eqb features "cqcc" then Some no_feature_fn
  else None.

(** Lines 230-243; [None] when no branch assigns [model_cls]. *)
Definition select_model_cls (model_name : string) : option model_class :=
  if String.eqb model_name "mfcc" then Some MFCCModel
  else if String.eqb model_name "spect" then Some SpectrogramModel
  else if String.eqb model_name "cqcc" then Some CQCCModel
  else if String.eqb model_name "resnet18" then Some resnet18
  else if String.eqb model_name "mobilenet_v2" then Some mobilenet_v2
  else if String.eqb model_name "senet50" then Some se_resnet50
  else if String.eqb model_name "senet20" then Some se_resnet20
  else None.

Definition recognized_model_names : list string :=
  ["mfcc"; "spect"; "cqcc"; "resnet18"; "mobilenet_v2"; "senet50"; "senet20"].

(** Reading a global name that may never have been assigned. *)
Definition read_name {A : Type} (name : string) (v : option A) : M A :=
  match v with
  | Some a => ret a
  | None => raise (NameError name)
  end.

Fixpoint for_each {A : Type} (l : list A) (body : A -> M unit) : M unit :=
  match l with
  | [] => ret tt
  | a :: l' => body a ;; for_each l' body
  end.

(** [range(n)] *)
Definition py_range (n : Z) : list nat := seq 0 (Z.to_nat n).

(** *** The script *)

(** [if not os.path.exists(p): os.mkdir(p)] *)
Definition ensure_dir (p : string) : M unit :=
  e <- path_exists p ;;
  if e then ret tt else mkdir p.

(** Lines 206-221. *)
Definition setup (w : World) (args : Args) : M unit :=
  ensure_dir "models" ;;
  (* args = parser.parse_args() *)
  py_assert (str_in (features args) ["mfcc"; "spect"; "cqcc"])
            "Not supported feature" ;;
  py_assert (str_in (track args) ["logical"; "physical"])
            "Invalid track given" ;;
  ensure_dir (model_save_path w args).

(** Lines 223-264. *)
Definition build (w : World) (args : Args) : M unit :=
  let model_cls := select_model_cls (model_name args) in
  print (device w) ;;
  external (dev_set_ctor w) ;;
  cls <- read_name "model_cls" model_cls ;;
  external (model_ctor w cls) ;;
  print (repr_args w args) ;;
  match model_path args with
  | Some p =>
      if truthy (Some p)
      then external (load_checkpoint w p) ;; print ("Model loaded : " +:+ p)
      else ret tt
  | None => ret tt
  end.

(** Lines 266-270; the scoring pass ends in the score file being opened
    for writing and the report of its path. *)
Definition eval_mode (w : World) (args : Args) : M unit :=
  if arg_eval args then
    py_assert (is_not_None (eval_output args))
              "You must provide an output path" ;;
    py_assert (is_not_None (model_path args))
              "You must provide model checkpoint" ;;
    external (eval_file w) ;;
    open_w (default "" (eval_output args)) ;;
    print ("Result saved to " +:+ default "" (eval_output args)) ;;
    raise (SystemExit 0)
  else ret tt.

(** Lines 272-284: the training set, the [SummaryWriter] on the log
    directory and the logger's file handler. *)
Definition start_training (w : World) (args : Args) : M unit :=
  external (train_set_ctor w) ;;
  makedirs (log_dir w args) ;;
  open_w (log_dir w args +:+ "/" +:+ "logger.log").

(** Lines 287-300: one epoch and its checkpoint. *)
Definition epoch (w : World) (args : Args) (k : nat) : M unit :=
  external (epoch_body w k) ;;
  open_w (path_join (model_save_path w args)
                    ("epoch_" +:+ str_int (Z.of_nat k) +:+ ".pth")).

Definition epoch_loop (w : World) (args : Args) : M unit :=
  for_each (py_range (num_epochs args)) (epoch w args).

(** Lines 301-304. *)
Definition handler (w : World) (args : Args) : M unit :=
  print "Error and Exit" ;;
  rmtree ("logs/" +:+ model_tag w args) ;;
  rmtree ("models/" +:+ model_tag w args).

Definition before_try (w : World) (args : Args) : M unit :=
  setup w args ;; build w args ;; eval_mode w args ;; start_training w args.

Definition main (w : World) (args : Args) : M unit :=
  before_try w args ;;
  try_except (epoch_loop w args) (handler w args).

(** The status the interpreter exits with: 0 when the script runs to its
    end, the code of a [SystemExit], 1 for any other uncaught exception. *)
Definition exit_status (r : result unit) : Z :=
  match r with
  | Ok _ => 0
  | Raise (SystemExit code) => code
  | Raise _ => 1
  end.

(** A default command line, a world in which nothing fails, and one in
    which the first epoch raises. *)
Definition default_args : Args :=
  {| arg_eval := false; model_name := "resnet18"; model_path := None;
     eval_output := None; batch_size := 30; num_epochs := 100;
     lr := (1 # 10000)%Q; comment := None; track := "physical";
     features := "spect"; is_eval := false; eval_part := 0 |}.

Definition quiet_world : World :=
  {| repr_float := fun _ => "0.0001"; repr_args := fun _ => "Namespace";
     device := "cpu"; dev_set_ctor := None; model_ctor := fun _ => None;
     load_checkpoint := fun _ => None; eval_file := None;
     train_set_ctor := None; epoch_body := fun _ => None |}.

Definition failing_world : World :=
  {| repr_float := fun _ => "0.0001"; repr_args := fun _ => "Namespace";
     device := "cpu"; dev_set_ctor := None; model_ctor := fun _ => None;
     load_checkpoint := fun _ => None; eval_file := None;
     train_set_ctor := None;
     epoch_body := fun k => if (k =? 0)%nat then Some (OtherError "RuntimeError")
                            else None |}.

Definition empty_state : state := mkState ∅ [].

(** ** Scoring: [produce_evaluation_file] (lines 78-112) *)

(** What the data set hands over for one sample: the input of the model
    and, of the metadata tuple, the file name (index 1), the index of the
    system id (index 3) and the key (index 4). *)
Record sample (X : Type) : Type := mkSample {
  sample_x : X;
  sample_y : Z;
  meta_fname : string;
  meta_sysid : Z;
  meta_key : Z
}.
Arguments mkSample {X}.
Arguments sample_x {X}.
Arguments sample_y {X}.
Arguments meta_fname {X}.
Arguments meta_sysid {X}.
Arguments meta_key {X}.

Record dataset (X : Type) : Type := mkDataset {
  samples : list (sample X);
  sysid_dict_inv : gmap Z string;
  ds_is_eval : bool               (* a blind evaluation set *)
}.
Arguments mkDataset {X}.
Arguments samples {X}.
Arguments sysid_dict_inv {X}.
Arguments ds_is_eval {X}.

(** [DataLoader(dataset, batch_size=n, shuffle=False)]: the samples in
    order, [n] at a time, the last batch possibly shorter. *)
Fixpoint batches_aux {A : Type} (fuel n : nat) (l : list A) : list (list A) :=
  match fuel with
  | O => []
  | S fuel' =>
      match l with
      | [] => []
      | _ :: _ => take n l :: batches_aux fuel' n (drop n l)
      end
  end.

Definition data_loader {A : Type} (n : nat) (l : list A) : list (list A) :=
  batches_aux (length l) n l.

(** The newline character. *)
Definition nl : string := String "010"%char EmptyString.

(** The lists the loop of lines 89-104 fills. *)
Record eval_lists : Type := mkEvalLists {
  fname_list : list string;
  key_list : list string;
  sys_id_list : list string;
  score_list : list Q
}.

(** [dataset.sysid_dict_inv[s.item()]] *)
Definition lookup_sysid {X : Type} (ds : dataset X) (s : Z) : result string :=
  match sysid_dict_inv ds !! s with
  | Some name => Ok name
  | None => Raise KeyError
  end.

Fixpoint map_result {A B : Type} (f : A -> result B) (l : list A) : result (list B) :=
  match l with
  | [] => Ok []
  | a :: l' =>
      let* b := f a in
      let* bs := map_result f l' in
      Ok (b :: bs)
  end.

(** The body of the loop, lines 90-104; [model] maps the inputs of a batch
    to the rows [(logit of class 0, logit of class 1)] of its output. *)
Definition eval_batch {X : Type} (ds : dataset X) (model : list X -> list (Q * Q))
    (acc : eval_lists) (batch : list (sample X)) : result eval_lists :=
  let batch_out := model (map sample_x batch) in
  let batch_score := map (fun row => (snd row - fst row)%Q) batch_out in
  let fnames := map meta_fname batch in
  let keys :=
    map (fun s => if meta_key s =? 1 then "bonafide" else "spoof") batch in
  let* sysids := map_result (fun s => lookup_sysid ds (meta_sysid s)) batch in
  Ok {| fname_list := fname_list acc ++ fnames;
        key_list := key_list acc ++ keys;
        sys_id_list := sys_id_list acc ++ sysids;
        score_list := score_list acc ++ batch_score |}.

Fixpoint eval_batches {X : Type} (ds : dataset X) (model : list X -> list (Q * Q))
    (acc : eval_lists) (bs : list (list (sample X))) : result eval_lists :=
  match bs with
  | [] => Ok acc
  | b :: bs' =>
      let* acc' := eval_batch ds model acc b in
      eval_batches ds model acc' bs'
  end.

(** Lines 108-111: the text written for one tuple of the zipped lists. *)
Definition write_line (repr : Q -> string) (is_eval : bool)
    (row : string * (string * (string * Q))) : string :=
  let '(f, (s, (k, cm))) := row in
  if negb is_eval
  then f +:+ " " +:+ s +:+ " " +:+ k +:+ " " +:+ repr cm +:+ nl
  else f +:+ " " +:+ repr cm +:+ nl.

(** The strings the [with] block of lines 106-111 writes to [save_path],
    in order, or the exception that escapes the loop of lines 89-104, before
    the file is opened. The opening of the file itself (line 106) acts on
    the directory tree and is part of the script's model, [eval_mode];
    [repr] is the text of a float under [format]. *)
Definition produce_evaluation_file {X : Type} (repr : Q -> string)
    (ds : dataset X) (model : list X -> list (Q * Q)) : result (list string) :=
  let loader := data_loader 32 (samples ds) in
  let* acc := eval_batches ds model (mkEvalLists [] [] [] []) loader in
  Ok (map (write_line repr (ds_is_eval ds))
        (zip (fname_list acc)
           (zip (sys_id_list acc) (zip (key_list acc) (score_list acc))))).

(** The line the specification describes for a sample with output row
    [out] and system name [sysname]. *)
Definition spec_score (out : Q * Q) : Q := (snd out - fst out)%Q.

Definition spec_key (label : Z) : string :=
  if label =? 1 then "bonafide" else "spoof".

Definition spec_line {X : Type} (repr : Q -> string) (blind : bool)
    (s : sample X) (sysname : string) (out : Q * Q) : string :=
  if blind
  then meta_fname s +:+ " " +:+ repr (spec_score out) +:+ nl
  else meta_fname s +:+ " " +:+ sysname +:+ " " +:+ spec_key (meta_key s)
         +:+ " " +:+ repr (spec_score out) +:+ nl.

(** ** Training: [train_epoch] (lines 115-156) *)

(** The operations of the tensor library the procedure calls, over model
    parameters [P], optimizer states [O], inputs [X] and output tensors
    [T]. *)
Record Torch (X P O T : Type) : Type := mkTorch {
  forward : P -> list X -> T;              (* model(batch_x) *)
  log_softmax : T -> T;                    (* nn.LogSoftmax(dim=1) *)
  nll_loss : list Q -> T -> list Z -> Q;   (* nn.NLLLoss(weight=w)(out, y) *)
  argmax_dim1 : T -> list Z;               (* out.max(dim=1)[1] *)
  adam_init : P -> Q -> O;                 (* torch.optim.Adam(params, lr=lr) *)
  adam_update : O -> P -> list X -> list Z -> O * P
                                           (* zero_grad, backward, step *)
}.
Arguments forward {X P O T}.
Arguments log_softmax {X P O T}.
Arguments nll_loss {X P O T}.
Arguments argmax_dim1 {X P O T}.
Arguments adam_init {X P O T}.
Arguments adam_update {X P O T}.

(** [(batch_pred == batch_y).sum(dim=0).item()] *)
Definition count_equal (pred y : list Z) : Z :=
  Z.of_nat (length (filter (fun py => fst py = snd py) (zip pred y))).

Record train_acc (P O : Type) : Type := mkTrainAcc {
  running_loss : Q;
  num_correct : Q;
  num_total : Q;
  ii : Z;
  params : P;
  optim : O
}.
Arguments mkTrainAcc {P O}.
Arguments running_loss {P O}.
Arguments num_correct {P O}.
Arguments num_total {P O}.
Arguments ii {P O}.
Arguments params {P O}.
Arguments optim {P O}.

(** The class weights of line 122. *)
Definition class_weight : list Q := [1%Q; 9%Q].

(** The body of the loop, lines 127-152, on a batch of inputs with their
    labels. *)
Definition train_batch {X P O T : Type} (t : Torch X P O T) (weight : list Q)
    (acc : train_acc P O) (batch : list (X * Z)) : train_acc P O :=
  let batch_x := map fst batch in
  let batch_y := map snd batch in
  let batch_size := Z.of_nat (length batch) in
  let batch_out := log_softmax t (forward t (params acc) batch_x) in
  let batch_loss := nll_loss t weight batch_out batch_y in
  let batch_pred := argmax_dim1 t batch_out in
  let '(optim', params') := adam_update t (optim acc) (params acc) batch_x batch_y in
  {| running_loss := (running_loss acc + batch_loss * inject_Z batch_size)%Q;
     num_correct := (num_correct acc + inject_Z (count_equal batch_pred batch_y))%Q;
     num_total := (num_total acc + inject_Z batch_size)%Q;
     ii := ii acc + 1;
     params := params';
     optim := optim' |}.

(** [a / b] on floats. *)
Definition py_fdiv (a b : Q) : result Q :=
  if Qeq_bool b 0 then Raise ZeroDivisionError else Ok (a / b)%Q.

(** Returns the running loss, the training accuracy and the parameters
    the model is left with. The operations of the tensor library are taken
    to return; the [epoch_size] of line 124 only enters the text of the log
    line, which is not part of the result. *)
Definition train_epoch {X P O T : Type} (t : Torch X P O T)
    (data_loader : list (list (X * Z))) (model : P) (lr : Q)
    : result (Q * Q * P) :=
  let optim := adam_init t model lr in
  let weight := class_weight in
  let acc :=
    fold_left (train_batch t weight) data_loader
      {| running_loss := 0; num_correct := 0; num_total := 0; ii := 0;
         params := model; optim := optim |} in
  let* running_loss := py_fdiv (running_loss acc) (num_total acc) in
  let* train_accuracy := py_fdiv (num_correct acc) (num_total acc) in
  Ok (running_loss, train_accuracy, params acc).

(** The parameters and the optimizer state each batch of an epoch meets,
    from given ones at the first batch. *)
Fixpoint train_trace {X P O T : Type} (t : Torch X P O T) (p : P) (o : O)
    (bs : list (list (X * Z))) : list (P * O) :=
  match bs with
  | [] => []
  | b :: bs' =>
      let '(o', p') := adam_update t o p (map fst b) (map snd b) in
      (p, o) :: train_trace t p' o' bs'
  end.

(** The parameters after the last batch. *)
Fixpoint train_final {X P O T : Type} (t : Torch X P O T) (p : P) (o : O)
    (bs : list (list (X * Z))) : P :=
  match bs with
  | [] => p
  | b :: bs' =>
      let '(o', p') := adam_update t o p (map fst b) (map snd b) in
      train_final t p' o' bs'
  end.

(** The loss of a batch met with parameters [p]: the weighted negative
    log-likelihood of the log-softmax of the model's output. *)
Definition batch_loss_at {X P O T : Type} (t : Torch X P O T) (weight : list Q)
    (p : P) (b : list (X * Z)) : Q :=
  nll_loss t weight (log_softmax t (forward t p (map fst b))) (map snd b).

(** The number of samples of a batch the model with parameters [p]
    predicts as labelled. *)
Definition batch_correct_at {X P O T : Type} (t : Torch X P O T)
    (p : P) (b : list (X * Z)) : Z :=
  count_equal (argmax_dim1 t (log_softmax t (forward t p (map fst b))))
              (map snd b).

Definition Qsum (l : list Q) : Q := fold_right Qplus 0%Q l.

Definition Zsum (l : list Z) : Z := fold_right Z.add 0 l.

(** ** Features: [compute_mfcc_feats] (lines 167-172) *)

(** A two-dimensional array as the list of its rows. *)
Definition matrix : Type := list (list Q).

(** The array has [r] rows of [c] entries. *)
Definition has_shape (m : matrix) (r c : nat) : Prop :=
  length m = r /\ Forall (fun row => length row = c) m.

(** The two functions of the audio library the extractor calls; each
    returns an array or raises. *)
Record Librosa : Type := mkLibrosa {
  feature_mfcc : list Q -> Z -> Z -> result matrix;
                              (* librosa.feature.mfcc(x, sr, n_mfcc) *)
  feature_delta : matrix -> result matrix     (* librosa.feature.delta *)
}.

Definition row_width (m : matrix) : nat :=
  match m with
  | [] => O
  | row :: _ => length row
  end.

(** [np.concatenate(ms, axis=0)]: the rows of the arrays one after the
    other; the arrays have to agree on the length of their rows. *)
Definition np_concatenate_rows (ms : list matrix) : result matrix :=
  match ms with
  | [] => Raise ValueError
  | m :: _ =>
      if forallb (fun m' => forallb (fun row => (length row =? row_width m)%nat) m') ms
      then Ok (concat ms)
      else Raise ValueError
  end.

Definition compute_mfcc_feats (lib : Librosa) (x : list Q) : result matrix :=
  let* mfcc := feature_mfcc lib x 16000 24 in
  let* delta := feature_delta lib mfcc in
  let* delta2 := feature_delta lib delta in
  let* feats := np_concatenate_rows [mfcc; delta; delta2] in
  Ok feats.

(** ** Notions used in the statements, and sample inputs *)


(** The losses, weighted by the batch sizes, and the counts of correct
    predictions of the batches of an epoch that starts with the parameters
    [p] and the optimizer state [o]; the sizes of the batches. *)
Definition epoch_losses {X P O T : Type} (t : Torch X P O T) (weight : list Q)
    (p : P) (o : O) (bs : list (list (X * Z))) : list Q :=
  zip_with (fun po b => (batch_loss_at t weight po.1 b
                         * inject_Z (Z.of_nat (length b)))%Q)
           (train_trace t p o bs) bs.

Definition epoch_corrects {X P O T : Type} (t : Torch X P O T)
    (p : P) (o : O) (bs : list (list (X * Z))) : list Z :=
  zip_with (fun po b => batch_correct_at t po.1 b) (train_trace t p o bs) bs.

Definition batch_sizes {A : Type} (bs : list (list A)) : list Z :=
  map (fun b => Z.of_nat (length b)) bs.

(** The state after lines 206-207. *)
Definition with_models_dir (s : state) : state :=
  if bool_decide ("models" ∈ fs s) then s
  else mkState ({[ "models" ]} ∪ fs s) (stdout s).

(** The statement leaves the tree as it is. *)
Definition keeps_fs {A : Type} (m : M A) : Prop :=
  forall s : state, fs (m s).2 = fs s.

(** The statement removes nothing. *)
Definition grows {A : Type} (m : M A) : Prop :=
  forall (s : state) (p : string), p ∈ fs s -> p ∈ fs (m s).2.

(** The command line with [--eval] and neither path given. *)
Definition eval_without_paths : Args :=
  {| arg_eval := true; model_name := "resnet18"; model_path := None;
     eval_output := None; batch_size := 30; num_epochs := 100;
     lr := (1 # 10000)%Q; comment := None; track := "physical";
     features := "spect"; is_eval := false; eval_part := 0 |}.

Definition bad_features_args : Args :=
  {| arg_eval := false; model_name := "resnet18"; model_path := None;
     eval_output := None; batch_size := 30; num_epochs := 100;
     lr := (1 # 10000)%Q; comment := None; track := "physical";
     features := "fbank"; is_eval := false; eval_part := 0 |}.

Definition unknown_model_args : Args :=
  {| arg_eval := false; model_name := "lcnn"; model_path := None;
     eval_output := None; batch_size := 30; num_epochs := 100;
     lr := (1 # 10000)%Q; comment := None; track := "physical";
     features := "spect"; is_eval := false; eval_part := 0 |}.

Definition sysname_of {X : Type} (ds : dataset X) (s : sample X) : string :=
  default "" (sysid_dict_inv ds !! meta_sysid s).

Definition model_outputs {X : Type} (model : list X -> list (Q * Q))
    (bs : list (list (sample X))) : list (Q * Q) :=
  concat (map (fun b => model (map sample_x b)) bs).

Definition two_samples : dataset Z :=
  {| samples := [mkSample 7 1 "LA_D_0001" 0 1; mkSample 8 0 "LA_D_0002" 3 0];
     sysid_dict_inv := <[0 := "-"]> (<[3 := "A03"]> ∅);
     ds_is_eval := false |}.

(** A model whose output row for the input [x] is [(x, 2 x + 1)]. *)
Definition toy_model (b : list Z) : list (Q * Q) :=
  map (fun x => (inject_Z x, inject_Z (2 * x + 1))) b.

(** A stand-in for the text of a float: the numerator of the rational. *)
Definition toy_repr (q : Q) : string := str_int (Qnum (Qred q)).

(** A small instance of the tensor operations: parameters and optimizer
    states are counters, the output row of an input [x] under the parameter
    [p] is [(x, p)], the loss of a batch is the sum of the weights. *)
Definition toy_torch : Torch Z Z Z (list (Q * Q)) :=
  {| forward := fun p xs => map (fun x => (inject_Z x, inject_Z p)) xs;
     log_softmax := fun out => out;
     nll_loss := fun w _ _ => Qsum w;
     argmax_dim1 :=
       fun out => map (fun row => if Qle_bool (snd row) (fst row) then 0 else 1) out;
     adam_init := fun _ _ => 0;
     adam_update := fun o p _ _ => (o + 1, p + 1) |}.

Definition toy_loader : list (list (Z * Z)) := [[(1, 1); (5, 0)]; [(2, 1)]].

(** A stand-in for the audio library: every coefficient of every frame
    is 0, with one frame more than the waveform has hops of 512 samples, and
    the derivative of an array is the array, refused when there are fewer
    than 9 frames. *)
Definition toy_librosa : Librosa :=
  {| feature_mfcc :=
       fun y _ n =>
         Ok (replicate (Z.to_nat n)
               (replicate (Z.to_nat (1 + Z.of_nat (length y) / 512)) 0%Q));
     feature_delta :=
       fun m =>
         if forallb (fun row => (9 <=? length row)%nat) m then Ok m
         else Raise (OtherError "ParameterError") |}.

(** A waveform of the fixed length. *)
Definition fitted_waveform : list Q := replicate (Z.to_nat default_max_len) 0%Q.

(** A sample is predicted correctly when the class predicted at its
    position is its label; the number of such positions of a batch. *)
Definition spec_num_correct (pred labels : list Z) : nat :=
  length (filter (fun i => pred !! i = labels !! i) (seq 0 (length labels))).

(** The number of correctly predicted samples of an epoch that starts with
    the parameters [p] and the optimizer state [o]: each batch is predicted
    with the parameters the batches before it have left. *)
Fixpoint spec_epoch_correct {X P O T : Type} (t : Torch X P O T)
    (p : P) (o : O) (bs : list (list (X * Z))) : Z :=
  match bs with
  | [] => 0
  | b :: bs' =>
      let '(o', p') := adam_update t o p (map fst b) (map snd b) in
      Z.of_nat (spec_num_correct
                  (argmax_dim1 t (log_softmax t (forward t p (map fst b))))
                  (map snd b))
      + spec_epoch_correct t p' o' bs'
  end.

(** A command line with a model name that has a ['/'] in it. *)
Definition slash_model_args : Args :=
  {| arg_eval := false; model_name := "a/b"; model_path := None;
     eval_output := None; batch_size := 30; num_epochs := 100;
     lr := (1 # 10000)%Q; comment := None; track := "physical";
     features := "spect"; is_eval := false; eval_part := 0 |}.

(** ** Validation: [evaluate_accuracy] (lines 63-75) *)

Record accuracy_acc : Type := mkAccuracyAcc {
  acc_correct : Q;
  acc_total : Q
}.

(** The body of the loop, lines 68-74; the model is called as it is, with
    the parameters [p] it has. *)
Definition accuracy_batch {X P O T : Type} (t : Torch X P O T) (p : P)
    (acc : accuracy_acc) (batch : list (X * Z)) : accuracy_acc :=
  let batch_x := map fst batch in
  let batch_y := map snd batch in
  let batch_size := Z.of_nat (length batch) in
  let batch_out := forward t p batch_x in
  let batch_pred := argmax_dim1 t batch_out in
  {| acc_correct := (acc_correct acc
                     + inject_Z (count_equal batch_pred batch_y))%Q;
     acc_total := (acc_total acc + inject_Z batch_size)%Q |}.

Definition evaluate_accuracy {X P O T : Type} (t : Torch X P O T)
    (data_loader : list (list (X * Z))) (model : P) : result Q :=
  let acc :=
    fold_left (accuracy_batch t model) data_loader
      {| acc_correct := 0; acc_total := 0 |} in
  py_fdiv (acc_correct acc) (acc_total acc).

(** The number of samples of the batches [bs] a model with parameters [p]
    predicts as labelled. *)
Definition correct_at {X P O T : Type} (t : Torch X P O T) (p : P)
    (bs : list (list (X * Z))) : Z :=
  Zsum (map (fun b => count_equal (argmax_dim1 t (forward t p (map fst b)))
                                  (map snd b)) bs).

(** The number of correctly predicted samples of the batches [bs] under
    the parameters [p]. *)
Definition spec_correct_at {X P O T : Type} (t : Torch X P O T) (p : P)
    (bs : list (list (X * Z))) : Z :=
  Zsum (map (fun b => Z.of_nat (spec_num_correct
                                  (argmax_dim1 t (forward t p (map fst b)))
                                  (map snd b))) bs).

(** Line 124: [math.ceil(len(data_loader.dataset) / data_loader.batch_size)]. *)
Definition epoch_size (dataset_len batch_size : Z) : result Z :=
  let* q := py_truediv dataset_len batch_size in
  Ok (Qceiling q).

(** ** The log spectrum: [get_log_spectrum] (lines 159-164) *)

(** The functions of the audio library that the spectrum and the sample
    transform call besides [mfcc] and [delta]; a complex number is the pair
    of its real and imaginary part. *)
Record Signal : Type := mkSignal {
  util_normalize : list Q -> result (list Q);   (* librosa.util.normalize *)
  core_stft : list Q -> Z -> Z -> Z -> result (list (list (Q * Q)));
                              (* librosa.core.stft(x, n_fft, win_length, hop_length) *)
  power_to_db : matrix -> result matrix         (* librosa.power_to_db *)
}.

(** [np.abs(s)**2], entry by entry. *)
Definition abs_squared (s : list (list (Q * Q))) : matrix :=
  map (map (fun c => (fst c * fst c + snd c * snd c)%Q)) s.

Definition get_log_spectrum (sig : Signal) (x : list Q) : result matrix :=
  let* s := core_stft sig x 2048 2048 512 in
  let a := abs_squared s in
  let* feat := power_to_db sig a in
  Ok feat.

(** ** The sample transform (lines 245-249) *)

(** The call [feature_fn(x)] for what lines 223-228 bound the name to;
    calling [None] is a [TypeError]. *)
Definition call_feature_fn (lib : Librosa) (sig : Signal) (f : feature_fn)
    (x : list Q) : result matrix :=
  match f with
  | compute_mfcc_feats_fn => compute_mfcc_feats lib x
  | get_log_spectrum_fn => get_log_spectrum sig x
  | no_feature_fn => Raise (OtherError "TypeError")
  end.

(** [x.repeat(3, 1, 1)] on a two-dimensional tensor: three channels. *)
Definition repeat_channels (m : matrix) : list matrix := [m; m; m].

(** The composition: [pad], [normalize], [feature_fn], [Tensor], channel
    replication. *)
Definition sample_transform (lib : Librosa) (sig : Signal) (f : feature_fn)
    (x : list Q) : result (list matrix) :=
  let* x1 := pad x default_max_len in
  let* x2 := util_normalize sig x1 in
  let* x3 := call_feature_fn lib sig f x2 in
  Ok (repeat_channels x3).

(** ** [get_logger] (lines 33-49) *)

Inductive log_handler : Type :=
  | FileHandler (filename : string)
  | StreamHandler.

Record logger : Type := mkLogger {
  log_level : Z;                      (* 0 is NOTSET *)
  log_handlers : list log_handler
}.

(** The loggers of the [logging] module by name ([None] is the root
    logger), the paths that exist, and those of them that are
    directories. *)
Record log_state : Type := mkLogState {
  loggers : gmap (option string) logger;
  log_fs : gset string;
  log_dirs : gset string
}.

(** Line 34. *)
Definition level_dict : gmap Z Z := <[0 := 10]> (<[1 := 20]> (<[2 := 30]> ∅)).

(** A logger nothing has been done to: no handlers, and the level NOTSET,
    but WARNING for the root logger. *)
Definition new_logger (name : option string) : logger :=
  mkLogger (match name with None => 30 | Some _ => 0 end) [].

(** [logging.getLogger(name)]: the logger of that name, a new one when
    there is none yet. *)
Definition getLogger (name : option string) (st : log_state) : logger :=
  default (new_logger name) (loggers st !! name).

Definition put_logger (name : option string) (l : logger) (st : log_state)
    : log_state :=
  mkLogState (<[name := l]> (loggers st)) (log_fs st) (log_dirs st).

(** What opening [filename] for writing raises, if anything: the empty
    name stands for the working directory, a directory cannot be opened, and
    the name has to lie in a directory. *)
Definition open_for_write_error (filename : string) (st : log_state)
    : option pyexn :=
  if String.eqb filename "" || bool_decide (filename ∈ log_dirs st)
  then Some (OtherError "IsADirectoryError")
  else if String.eqb (dirname filename) ""
          || bool_decide (dirname filename ∈ log_dirs st)
  then None
  else if bool_decide (dirname filename ∈ log_fs st)
  then Some (OtherError "NotADirectoryError")
  else Some (FileNotFoundError filename).

(** The logger is returned under its name; the state reached is kept when
    an exception escapes. *)
Definition get_logger (filename : string) (verbosity : Z) (name : option string)
    (st : log_state) : result (option string) * log_state :=
  let logger0 := getLogger name st in
  let st1 := put_logger name logger0 st in
  match level_dict !! verbosity with
  | None => (Raise KeyError, st1)
  | Some level =>
      let st2 := put_logger name (mkLogger level (log_handlers logger0)) st1 in
      (* fh = logging.FileHandler(filename, "w") *)
      match open_for_write_error filename st2 with
      | Some e => (Raise e, st2)
      | None =>
          let st3 :=
            mkLogState (loggers st2) ({[ filename ]} ∪ log_fs st2)
                       (log_dirs st2) in
          let handlers := log_handlers logger0 ++ [FileHandler filename] in
          let handlers := handlers ++ [StreamHandler] in
          (Ok name, put_logger name (mkLogger level handlers) st3)
      end
  end.




(** ** Notions used in the statements about the script *)

(** The checkpoint of epoch [k], line 300. *)
Definition checkpoint_path (w : World) (args : Args) (k : nat) : string :=
  path_join (model_save_path w args)
            ("epoch_" +:+ str_int (Z.of_nat k) +:+ ".pth").

(** The world [w] with another outcome of the loading of checkpoints. *)
Definition with_load_checkpoint (w : World) (f : string -> option pyexn) : World :=
  {| repr_float := repr_float w; repr_args := repr_args w; device := device w;
     dev_set_ctor := dev_set_ctor w; model_ctor := model_ctor w;
     load_checkpoint := f; eval_file := eval_file w;
     train_set_ctor := train_set_ctor w; epoch_body := epoch_body w |}.

(** Two epochs, none of which fails. *)
Definition two_epochs_args : Args :=
  {| arg_eval := false; model_name := "resnet18"; model_path := None;
     eval_output := None; batch_size := 30; num_epochs := 2;
     lr := (1 # 10000)%Q; comment := None; track := "physical";
     features := "spect"; is_eval := false; eval_part := 0 |}.


(** An evaluation run with the empty string as the path of the
    checkpoint. *)
Definition eval_empty_path_args : Args :=
  {| arg_eval := true; model_name := "resnet18";
     model_path := Some ""; eval_output := Some "scores.txt";
     batch_size := 30; num_epochs := 100;
     lr := (1 # 10000)%Q; comment := None; track := "physical";
     features := "spect"; is_eval := false; eval_part := 0 |}.

(** A world in which the second epoch raises. *)
Definition second_epoch_fails : World :=
  {| repr_float := fun _ => "0.0001"; repr_args := fun _ => "Namespace";
     device := "cpu"; dev_set_ctor := None; model_ctor := fun _ => None;
     load_checkpoint := fun _ => None; eval_file := None;
     train_set_ctor := None;
     epoch_body := fun k => if (k =? 1)%nat then Some (OtherError "RuntimeError")
                            else None |}.

(** Stand-ins for the audio library: [normalize] returns its argument, the
    transform of a waveform has one entry, the conversion to decibels
    returns its argument. *)
Definition toy_signal : Signal :=
  {| util_normalize := fun x => Ok x;
     core_stft := fun _ _ _ _ => Ok [[(3 # 1, 4 # 1)%Q]];
     power_to_db := fun a => Ok a |}.


Definition no_loggers : log_state := mkLogState ∅ ∅ ∅.

(** * Properties *)

(** ** Length fitting: [pad] *)

Example pad_2_5 : pad [10; 20] 5 = Ok [10; 10; 10; 20; 20].
Proof. reflexivity. Qed.

Example spec_fit_short_2_5 : spec_fit_short [10; 20] 5 = [10; 10; 10; 10; 20].
Proof. reflexivity. Qed.

Lemma length_repeat_each {A : Type} (k : nat) (x : list A) :
  length (repeat_each k x) = (k * length x)%nat.
Proof.
  induction x as [|a x IH]; simpl.
  - lia.
  - rewrite length_app, length_replicate, IH. lia.
Qed.

Lemma elem_of_repeat_each {A : Type} (k : nat) (x : list A) (a : A) :
  a ∈ repeat_each k x -> a ∈ x.
Proof.
  induction x as [|b x IH]; simpl; intros H.
  - exact H.
  - apply elem_of_app in H as [H|H].
    + apply elem_of_replicate in H as [-> _]. left.
    + right. auto.
Qed.

(** Position [i] of the repeated array holds input sample [i / k]. *)
Lemma lookup_repeat_each {A : Type} (k : nat) (x : list A) (i : nat) :
  (0 < k)%nat -> repeat_each k x !! i = x !! (i / k)%nat.
Proof.
  intros Hk. revert i. induction x as [|a x IH]; intros i; simpl.
  - by rewrite !lookup_nil.
  - destruct (decide (i < k)%nat) as [Hlt|Hge].
    + rewrite lookup_app_l by (rewrite length_replicate; lia).
      rewrite Nat.div_small by lia. simpl.
      apply lookup_replicate_2. lia.
    + rewrite lookup_app_r by (rewrite length_replicate; lia).
      rewrite length_replicate, IH.
      replace i with ((i - k) + 1 * k)%nat at 2 by lia.
      rewrite Nat.div_add by lia.
      by rewrite Nat.add_1_r.
Qed.

(** The float [max_len / x_len + 1] has integer part
    [floor(max_len / x_len) + 1]. *)
Lemma Qtrunc_num_repeats (max_len x_len : Z) :
  0 <= max_len -> 0 < x_len ->
  Qtrunc (inject_Z max_len / inject_Z x_len + 1)%Q = max_len / x_len + 1.
Proof.
  intros Hm Hx. destruct x_len as [|p|p]; try lia.
  unfold Qtrunc, Qdiv, Qinv, Qmult, Qplus, inject_Z. simpl.
  rewrite Z.quot_div_nonneg by lia.
  replace (Z.pos (1 * p * 1)) with (Z.pos p) by lia.
  replace (max_len * 1 * 1 + 1 * Z.pos (1 * p)) with (max_len + 1 * Z.pos p) by lia.
  rewrite Z.div_add by lia. reflexivity.
Qed.

Lemma pad_short_eq {A : Type} (x : list A) (max_len : Z) :
  (0 < length x)%nat -> Z.of_nat (length x) < max_len ->
  pad x max_len =
  Ok (take (Z.to_nat max_len)
        (repeat_each (Z.to_nat (max_len / Z.of_nat (length x) + 1)) x)).
Proof.
  intros HL HT. unfold pad.
  destruct (Z.leb_spec max_len (Z.of_nat (length x))) as [?|_]; [lia|].
  unfold py_truediv.
  destruct (Z.eqb_spec (Z.of_nat (length x)) 0) as [?|_]; [lia|].
  simpl. unfold np_repeat.
  rewrite Qtrunc_num_repeats by lia.
  assert (0 <= max_len / Z.of_nat (length x)) by (apply Z.div_pos; lia).
  destruct (Z.ltb_spec (max_len / Z.of_nat (length x) + 1) 0) as [?|_]; [lia|].
  simpl. unfold py_slice_to.
  destruct (Z.leb_spec 0 max_len) as [_|?]; [reflexivity|lia].
Qed.

(** The repeated array is long enough for the final slice to be full. *)
Lemma repeat_factor_covers (max_len L : Z) :
  0 < L -> 0 <= max_len -> max_len < (max_len / L + 1) * L.
Proof.
  intros HL Hm.
  pose proof (Z.div_mod max_len L ltac:(lia)).
  pose proof (Z.mod_pos_bound max_len L HL). nia.
Qed.

(** C1 (as amended). For a waveform of length [L] with
    [0 < L < max_len], [pad] returns: its output is the element-wise
    repetition of the input with the integer repeat factor
    [floor(max_len / L) + 1] (the integer part of the float
    [max_len / L + 1] the code computes), cut to its first [max_len]
    elements; the output has length exactly [max_len], position [i] of it
    holds input sample [i / factor], and every output element is an element
    of the input. *)
Theorem pad_short_repeats {A : Type} (x : list A) (max_len : Z) :
  (0 < length x)%nat -> Z.of_nat (length x) < max_len ->
  let k := Z.to_nat (max_len / Z.of_nat (length x) + 1) in
  exists y : list A,
    pad x max_len = Ok y /\
    y = take (Z.to_nat max_len) (repeat_each k x) /\
    Z.of_nat (length y) = max_len /\
    (forall i : nat, (i < length y)%nat -> y !! i = x !! (i / k)%nat) /\
    (forall a : A, a ∈ y -> a ∈ x).
Proof.
  intros HL HT k.
  assert (Hq : 0 <= max_len / Z.of_nat (length x)) by (apply Z.div_pos; lia).
  pose proof (repeat_factor_covers max_len (Z.of_nat (length x))
                ltac:(lia) ltac:(lia)) as Hcov.
  assert (Hk : (0 < k)%nat) by (unfold k; lia).
  assert (Hlen : (Z.to_nat max_len <= length (repeat_each k x))%nat).
  { rewrite length_repeat_each. unfold k. nia. }
  eexists. split; [apply pad_short_eq; assumption|].
  fold k. split; [reflexivity|]. split; [|split].
  - rewrite length_take. lia.
  - intros i Hi. rewrite length_take in Hi.
    rewrite lookup_take_lt by lia.
    by apply lookup_repeat_each.
  - intros a Ha. apply (elem_of_repeat_each k).
    apply list_elem_of_lookup in Ha as [i Hi].
    apply lookup_take_Some in Hi as [Hi _].
    exact (list_elem_of_lookup_2 _ _ _ Hi).
Qed.

Lemma pad_short_repeats_witness :
  exists y : list Z,
    pad [10; 20] 5 = Ok y /\
    y = take (Z.to_nat 5) (repeat_each 3 [10; 20]) /\
    Z.of_nat (length y) = 5 /\
    (forall i : nat, (i < length y)%nat -> y !! i = [10; 20] !! (i / 3)%nat) /\
    (forall a : Z, a ∈ y -> a ∈ [10; 20]).
Proof.
  apply (pad_short_repeats [10; 20] 5); simpl; lia.
Defined.

(** C1 as the specification words it: with the repeat factor
    [ceil(max_len / L) + 1] the construction differs from what [pad]
    returns on a two-sample waveform and target length 5. *)
Lemma pad_short_spec_factor_differs :
  (0 < length [10; 20])%nat /\ Z.of_nat (length [10; 20]) < 5 /\
  spec_repeat_factor 5 (length [10; 20]) = 4 /\
  pad [10; 20] 5 = Ok [10; 10; 10; 20; 20] /\
  spec_fit_short [10; 20] 5 = [10; 10; 10; 10; 20] /\
  pad [10; 20] 5 <> Ok (spec_fit_short [10; 20] 5).
Proof.
  repeat split; try (simpl; lia); try reflexivity.
  vm_compute. intros H. discriminate H.
Qed.

(** C3 (as amended). On a zero-length waveform and a positive target
    length [pad] fails, and the failure is the [ZeroDivisionError] of the
    division [max_len / x_len]: no value is returned. *)
Theorem pad_empty_raises {A : Type} (max_len : Z) :
  0 < max_len -> pad (@nil A) max_len = Raise ZeroDivisionError.
Proof.
  intros H. unfold pad. cbn [length].
  destruct (Z.leb_spec max_len (Z.of_nat 0)) as [?|_]; [lia|]. reflexivity.
Qed.

Lemma pad_empty_raises_witness :
  0 < default_max_len /\ pad (@nil Q) default_max_len = Raise ZeroDivisionError.
Proof.
  assert (H : 0 < default_max_len) by (unfold default_max_len; lia).
  exact (conj H (pad_empty_raises default_max_len H)).
Defined.

(** C3 as the specification words it: on the empty waveform no error
    named EmptyInput is raised; the division by zero is performed. *)
Lemma pad_empty_not_EmptyInput :
  pad (@nil Q) default_max_len = Raise ZeroDivisionError /\
  ~ (exists e : pyexn,
       pad (@nil Q) default_max_len = Raise e /\ exn_name e = "EmptyInput").
Proof.
  split; [reflexivity|].
  intros [e [He Hn]]. vm_compute in He. inversion He; subst e.
  simpl in Hn. discriminate Hn.
Qed.

(** C8. For a waveform at least [max_len] long ([max_len] a length, so not
    negative) [pad] returns exactly its first [max_len] samples: a prefix of
    the input of length [max_len]. *)
Theorem pad_long_prefix {A : Type} (x : list A) (max_len : Z) :
  0 <= max_len -> max_len <= Z.of_nat (length x) ->
  pad x max_len = Ok (take (Z.to_nat max_len) x) /\
  Z.of_nat (length (take (Z.to_nat max_len) x)) = max_len /\
  x = take (Z.to_nat max_len) x ++ drop (Z.to_nat max_len) x.
Proof.
  intros H0 HL. split; [|split].
  - unfold pad.
    destruct (Z.leb_spec max_len (Z.of_nat (length x))) as [_|?]; [|lia].
    unfold py_slice_to.
    destruct (Z.leb_spec 0 max_len) as [_|?]; [reflexivity|lia].
  - rewrite length_take. lia.
  - by rewrite take_drop.
Qed.

Lemma pad_long_prefix_witness :
  pad [1; 2; 3; 4; 5] 3 = Ok (take (Z.to_nat 3) [1; 2; 3; 4; 5]) /\
  Z.of_nat (length (take (Z.to_nat 3) [1; 2; 3; 4; 5])) = 3 /\
  [1; 2; 3; 4; 5] = take (Z.to_nat 3) [1; 2; 3; 4; 5] ++ drop (Z.to_nat 3) [1; 2; 3; 4; 5].
Proof.
  apply (pad_long_prefix [1; 2; 3; 4; 5] 3); simpl; lia.
Defined.

Example pad_long_3 : pad [1; 2; 3; 4; 5] 3 = Ok [1; 2; 3].
Proof. reflexivity. Qed.

Example pad_exact : pad [1; 2; 3] 3 = Ok [1; 2; 3].
Proof. reflexivity. Qed.

(** ** The driver script *)

Lemma bind_Ok {A B : Type} (m : M A) (k : A -> M B) (s s' : state) (a : A) :
  m s = (Ok a, s') -> bind m k s = k a s'.
Proof. intros H. unfold bind. by rewrite H. Qed.

Lemma bind_Raise {A B : Type} (m : M A) (k : A -> M B) (s s' : state) (e : pyexn) :
  m s = (Raise e, s') -> bind m k s = (Raise e, s').
Proof. intros H. unfold bind. by rewrite H. Qed.

Lemma bind_inv_Ok {A B : Type} (m : M A) (k : A -> M B) (s s2 : state) (b : B) :
  bind m k s = (Ok b, s2) ->
  exists (a : A) (s1 : state), m s = (Ok a, s1) /\ k a s1 = (Ok b, s2).
Proof.
  unfold bind. destruct (m s) as [[a|e] s1]; intros H.
  - by exists a, s1.
  - discriminate H.
Qed.

Lemma with_models_dir_fs (s : state) (p : string) :
  p ∈ fs (with_models_dir s) <-> p ∈ fs s \/ p = "models".
Proof.
  unfold with_models_dir.
  destruct (bool_decide_reflect ("models" ∈ fs s)) as [Hm|Hm]; simpl.
  - split; [auto|]. intros [H| ->]; assumption.
  - rewrite elem_of_union, elem_of_singleton. tauto.
Qed.

Lemma ensure_models_dir (s : state) :
  ensure_dir "models" s = (Ok tt, with_models_dir s).
Proof.
  unfold ensure_dir, with_models_dir, bind, path_exists, mkdir.
  destruct (bool_decide_reflect ("models" ∈ fs s)) as [Hm|Hm]; [reflexivity|].
  rewrite bool_decide_eq_false_2 by exact Hm. reflexivity.
Qed.

Lemma setup_bad_features (w : World) (args : Args) (s : state) :
  str_in (features args) ["mfcc"; "spect"; "cqcc"] = false ->
  setup w args s
  = (Raise (AssertionError "Not supported feature"), with_models_dir s).
Proof.
  intros Hf. unfold setup.
  rewrite (bind_Ok _ _ _ _ _ (ensure_models_dir s)).
  rewrite Hf. reflexivity.
Qed.

Lemma setup_bad_track (w : World) (args : Args) (s : state) :
  str_in (features args) ["mfcc"; "spect"; "cqcc"] = true ->
  str_in (track args) ["logical"; "physical"] = false ->
  setup w args s
  = (Raise (AssertionError "Invalid track given"), with_models_dir s).
Proof.
  intros Hf Ht. unfold setup.
  rewrite (bind_Ok _ _ _ _ _ (ensure_models_dir s)).
  rewrite Hf, Ht. reflexivity.
Qed.

Lemma main_setup_raises (w : World) (args : Args) (s s' : state) (e : pyexn) :
  setup w args s = (Raise e, s') -> main w args s = (Raise e, s').
Proof.
  intros H. unfold main, before_try.
  apply bind_Raise. apply bind_Raise. exact H.
Qed.

(** *** What a statement does to the directory tree *)

Lemma keeps_fs_grows {A : Type} (m : M A) : keeps_fs m -> grows m.
Proof. intros H s p Hp. by rewrite H. Qed.

Lemma keeps_fs_bind {A B : Type} (m : M A) (k : A -> M B) :
  keeps_fs m -> (forall a, keeps_fs (k a)) -> keeps_fs (bind m k).
Proof.
  intros Hm Hk s. unfold bind. specialize (Hm s).
  destruct (m s) as [[a|e] s1]; simpl in *.
  - by rewrite Hk.
  - exact Hm.
Qed.

Lemma grows_bind {A B : Type} (m : M A) (k : A -> M B) :
  grows m -> (forall a, grows (k a)) -> grows (bind m k).
Proof.
  intros Hm Hk s p Hp. unfold bind. specialize (Hm s p Hp).
  destruct (m s) as [[a|e] s1]; simpl in *.
  - by apply Hk.
  - exact Hm.
Qed.

Lemma keeps_fs_ret {A : Type} (a : A) : keeps_fs (ret a).
Proof. by intros s. Qed.

Lemma keeps_fs_raise {A : Type} (e : pyexn) : keeps_fs (@raise A e).
Proof. by intros s. Qed.

Lemma keeps_fs_print (line : string) : keeps_fs (print line).
Proof. by intros s. Qed.

Lemma keeps_fs_external (o : option pyexn) : keeps_fs (external o).
Proof. by destruct o; intros s. Qed.

Lemma keeps_fs_assert (c : bool) (msg : string) : keeps_fs (py_assert c msg).
Proof. by destruct c; intros s. Qed.

Lemma keeps_fs_read_name {A : Type} (name : string) (v : option A) :
  keeps_fs (read_name name v).
Proof. by destruct v; intros s. Qed.

Lemma grows_mkdir (p : string) : grows (mkdir p).
Proof.
  intros s q Hq. unfold mkdir.
  destruct (bool_decide (p ∈ fs s)); [exact Hq|].
  destruct (dir_exists (dirname p) s); simpl; [|exact Hq].
  apply elem_of_union. by right.
Qed.

Lemma grows_ensure_dir (p : string) : grows (ensure_dir p).
Proof.
  apply grows_bind; [by intros s q Hq|].
  intros [|]; [apply keeps_fs_grows, keeps_fs_ret | apply grows_mkdir].
Qed.

Lemma grows_makedirs (p : string) : grows (makedirs p).
Proof. intros s q Hq. simpl. apply elem_of_union. by right. Qed.

Lemma grows_open_w (p : string) : grows (open_w p).
Proof.
  intros s q Hq. unfold open_w.
  destruct (String.eqb p ""); [exact Hq|].
  destruct (dir_exists (dirname p) s); simpl; [|exact Hq].
  apply elem_of_union. by right.
Qed.

Lemma grows_for_each {A : Type} (l : list A) (body : A -> M unit) :
  (forall a, grows (body a)) -> grows (for_each l body).
Proof.
  intros Hb. induction l as [|a l IH]; simpl.
  - apply keeps_fs_grows, keeps_fs_ret.
  - apply grows_bind; [apply Hb | intros _; exact IH].
Qed.

Lemma keeps_fs_build (w : World) (args : Args) : keeps_fs (build w args).
Proof.
  unfold build.
  apply keeps_fs_bind; [apply keeps_fs_print | intros _].
  apply keeps_fs_bind; [apply keeps_fs_external | intros _].
  apply keeps_fs_bind; [apply keeps_fs_read_name | intros cls].
  apply keeps_fs_bind; [apply keeps_fs_external | intros _].
  apply keeps_fs_bind; [apply keeps_fs_print | intros _].
  destruct (model_path args) as [p|]; [|apply keeps_fs_ret].
  destruct (truthy (Some p)); [|apply keeps_fs_ret].
  apply keeps_fs_bind; [apply keeps_fs_external | intros _].
  apply keeps_fs_print.
Qed.

Lemma grows_eval_mode (w : World) (args : Args) : grows (eval_mode w args).
Proof.
  unfold eval_mode. destruct (arg_eval args); [|apply keeps_fs_grows, keeps_fs_ret].
  apply grows_bind; [apply keeps_fs_grows, keeps_fs_assert | intros _].
  apply grows_bind; [apply keeps_fs_grows, keeps_fs_assert | intros _].
  apply grows_bind; [apply keeps_fs_grows, keeps_fs_external | intros _].
  apply grows_bind; [apply grows_open_w | intros _].
  apply grows_bind; [apply keeps_fs_grows, keeps_fs_print | intros _].
  apply keeps_fs_grows, keeps_fs_raise.
Qed.

Lemma grows_start_training (w : World) (args : Args) :
  grows (start_training w args).
Proof.
  unfold start_training.
  apply grows_bind; [apply keeps_fs_grows, keeps_fs_external | intros _].
  apply grows_bind; [apply grows_makedirs | intros _].
  apply grows_open_w.
Qed.

Lemma grows_epoch_loop (w : World) (args : Args) : grows (epoch_loop w args).
Proof.
  apply grows_for_each. intros k. unfold epoch.
  apply grows_bind; [apply keeps_fs_grows, keeps_fs_external | intros _].
  apply grows_open_w.
Qed.

(** *** Directories the script creates *)

Lemma ensure_dir_Ok (p : string) (s s' : state) :
  ensure_dir p s = (Ok tt, s') -> p ∈ fs s'.
Proof.
  unfold ensure_dir, bind, path_exists, mkdir.
  destruct (bool_decide_reflect (p ∈ fs s)) as [Hp|Hp].
  - intros [= <-]. exact Hp.
  - rewrite bool_decide_eq_false_2 by exact Hp.
    destruct (dir_exists (dirname p) s); intros [= <-]; simpl.
    apply elem_of_union. left. by apply elem_of_singleton.
Qed.

Lemma ensure_dir_created (p : string) (s : state) (q : string) :
  q ∈ fs (ensure_dir p s).2 -> q ∈ fs s \/ q = p.
Proof.
  unfold ensure_dir, bind, path_exists, mkdir.
  destruct (bool_decide_reflect (p ∈ fs s)) as [Hp|Hp]; simpl; [auto|].
  rewrite bool_decide_eq_false_2 by exact Hp.
  destruct (dir_exists (dirname p) s); simpl; [|auto].
  rewrite elem_of_union, elem_of_singleton. tauto.
Qed.

Lemma setup_Ok (w : World) (args : Args) (s s' : state) :
  setup w args s = (Ok tt, s') -> model_save_path w args ∈ fs s'.
Proof.
  unfold setup. intros H.
  apply bind_inv_Ok in H as (_ & s1 & _ & H).
  apply bind_inv_Ok in H as (_ & s2 & _ & H).
  apply bind_inv_Ok in H as (_ & s3 & _ & H).
  by apply ensure_dir_Ok in H.
Qed.

Lemma setup_created (w : World) (args : Args) (s : state) (q : string) :
  q ∈ fs (setup w args s).2 ->
  q ∈ fs s \/ q = "models" \/ q = model_save_path w args.
Proof.
  unfold setup. rewrite (bind_Ok _ _ _ _ _ (ensure_models_dir s)).
  unfold bind at 1.
  destruct (str_in (features args) _); simpl;
    [|rewrite with_models_dir_fs; tauto].
  unfold bind at 1.
  destruct (str_in (track args) _); simpl;
    [|rewrite with_models_dir_fs; tauto].
  intros [H| ->]%ensure_dir_created; [|tauto].
  apply with_models_dir_fs in H. tauto.
Qed.

Lemma append_cons (a : ascii) (p r : string) :
  String a p +:+ r = String a (p +:+ r).
Proof. reflexivity. Qed.

Lemma append_empty_r (p : string) : p +:+ "" = p.
Proof.
  induction p as [|a p IH]; [reflexivity|].
  by rewrite append_cons, IH.
Qed.

Lemma append_snoc (p : string) (c : ascii) (r : string) :
  (p +:+ String c "") +:+ r = p +:+ String c r.
Proof.
  induction p as [|a p IH]; [reflexivity|].
  by rewrite !append_cons, IH.
Qed.

Lemma ancestors_aux_self (pre rest : string) :
  pre +:+ rest ∈ ancestors_aux pre rest.
Proof.
  revert pre. induction rest as [|c r IH]; intros pre; simpl.
  - rewrite append_empty_r. left.
  - apply elem_of_app. right. rewrite <- append_snoc. apply IH.
Qed.

Lemma ancestors_self (p : string) : p ∈ ancestors p.
Proof. exact (ancestors_aux_self "" p). Qed.

Lemma makedirs_Ok (p : string) (s s' : state) :
  makedirs p s = (Ok tt, s') -> p ∈ fs s'.
Proof.
  intros H. replace s' with (makedirs p s).2 by (by rewrite H).
  unfold makedirs. cbn [snd fs].
  apply elem_of_union. left. apply elem_of_list_to_set, ancestors_self.
Qed.

Lemma start_training_Ok (w : World) (args : Args) (s s' : state) :
  start_training w args s = (Ok tt, s') -> log_dir w args ∈ fs s'.
Proof.
  unfold start_training. intros H.
  apply bind_inv_Ok in H as (_ & s1 & _ & H).
  apply bind_inv_Ok in H as ([] & s2 & Hmk & H).
  pose proof (grows_open_w (log_dir w args +:+ "/" +:+ "logger.log") s2
                (log_dir w args)) as Hg.
  rewrite H in Hg. apply Hg.
  exact (makedirs_Ok _ _ _ Hmk).
Qed.

Lemma before_try_Ok (w : World) (args : Args) (s s' : state) :
  before_try w args s = (Ok tt, s') ->
  model_save_path w args ∈ fs s' /\ log_dir w args ∈ fs s'.
Proof.
  unfold before_try. intros H.
  apply bind_inv_Ok in H as ([] & s1 & Hsetup & H).
  apply bind_inv_Ok in H as ([] & s2 & Hbuild & H).
  apply bind_inv_Ok in H as ([] & s3 & Heval & H).
  split; [|by apply start_training_Ok in H].
  apply setup_Ok in Hsetup.
  pose proof (keeps_fs_build w args s1) as Hb. rewrite Hbuild in Hb.
  pose proof (grows_eval_mode w args s2 (model_save_path w args)) as He.
  rewrite Heval in He.
  pose proof (grows_start_training w args s3 (model_save_path w args)) as Ht.
  rewrite H in Ht. simpl in *. apply Ht, He. by rewrite Hb.
Qed.

(** *** The handler of the bare [except] *)

Lemma log_dir_not_under_models (tag : string) :
  under ("logs/" +:+ tag) ("models/" +:+ tag) = false.
Proof. reflexivity. Qed.

Lemma handler_run (w : World) (args : Args) (s : state) :
  log_dir w args ∈ fs s -> model_save_path w args ∈ fs s ->
  handler w args s
  = (Ok tt,
     mkState (filter (fun q => under (model_save_path w args) q = false)
                (filter (fun q => under (log_dir w args) q = false) (fs s)))
             (stdout s ++ ["Error and Exit"])).
Proof.
  intros HL HM. unfold handler, bind, print, rmtree. cbn [fs stdout].
  change ("logs/" +:+ model_tag w args) with (log_dir w args).
  change ("models/" +:+ model_tag w args) with (model_save_path w args).
  rewrite bool_decide_eq_true_2 by exact HL.
  rewrite bool_decide_eq_true_2; [reflexivity|].
  apply elem_of_filter. split; [|exact HM].
  apply log_dir_not_under_models.
Qed.

(** C2 (as amended). When the script reaches the epoch loop and an
    exception, whichever it is, is raised in the loop, the handler prints
    [Error and Exit], deletes the run's log directory and the run's model
    directory with everything beneath them and nothing else, and the script
    then runs to its end: no exception escapes and the exit status is 0. *)
Theorem training_failure_cleanup
    (w : World) (args : Args) (s s1 : state) (e : pyexn) :
  before_try w args s = (Ok tt, s1) ->
  (epoch_loop w args s1).1 = Raise e ->
  (main w args s).1 = Ok tt /\
  exit_status (main w args s).1 = 0 /\
  last (stdout (main w args s).2) = Some "Error and Exit" /\
  (forall q : string,
     q ∈ fs (main w args s).2 <->
     q ∈ fs (epoch_loop w args s1).2 /\
     under (log_dir w args) q = false /\
     under (model_save_path w args) q = false).
Proof.
  intros Hpre Hloop.
  destruct (before_try_Ok _ _ _ _ Hpre) as [HM HL].
  pose proof (grows_epoch_loop w args s1) as Hg.
  unfold main. rewrite (bind_Ok _ _ _ _ _ Hpre). unfold try_except.
  destruct (epoch_loop w args s1) as [[[]|e'] s2] eqn:Hrun;
    simpl in Hloop; [discriminate Hloop|].
  pose proof (Hg _ HM) as HM2. pose proof (Hg _ HL) as HL2.
  cbn [snd] in HM2, HL2.
  rewrite (handler_run w args s2 HL2 HM2). cbn [fst snd fs stdout].
  split; [reflexivity|]. split; [reflexivity|]. split.
  - apply last_snoc.
  - intros q. rewrite !elem_of_filter. tauto.
Qed.

Lemma training_failure_cleanup_witness :
  (main failing_world default_args empty_state).1 = Ok tt /\
  exit_status (main failing_world default_args empty_state).1 = 0 /\
  last (stdout (main failing_world default_args empty_state).2)
  = Some "Error and Exit" /\
  (forall q : string,
     q ∈ fs (main failing_world default_args empty_state).2 <->
     q ∈ fs (epoch_loop failing_world default_args
               (before_try failing_world default_args empty_state).2).2 /\
     under (log_dir failing_world default_args) q = false /\
     under (model_save_path failing_world default_args) q = false).
Proof.
  apply (training_failure_cleanup failing_world default_args empty_state
           (before_try failing_world default_args empty_state).2
           (OtherError "RuntimeError")).
  - vm_compute. reflexivity.
  - vm_compute. reflexivity.
Defined.

(** C2 as the specification words it: an exception in the first epoch is
    caught, and the process ends with status 0, not with a failure. *)
Lemma training_failure_exit_status_zero :
  (epoch_loop failing_world default_args
     (before_try failing_world default_args empty_state).2).1
  = Raise (OtherError "RuntimeError") /\
  (main failing_world default_args empty_state).1 = Ok tt /\
  ~ (exit_status (main failing_world default_args empty_state).1 <> 0).
Proof.
  split; [vm_compute; reflexivity|].
  split; [vm_compute; reflexivity|].
  intros H. apply H. vm_compute. reflexivity.
Qed.

(** *** Configuration errors *)

Lemma models_is_not_run_dir (tag : string) :
  "models" <> path_join "models" tag /\ "models" <> "logs/" +:+ tag.
Proof. split; intros H; discriminate H. Qed.

Lemma eval_mode_missing_path (w : World) (args : Args) (s : state) :
  arg_eval args = true ->
  eval_output args = None \/ model_path args = None ->
  exists msg : string,
    eval_mode w args s = (Raise (AssertionError msg), s).
Proof.
  intros He Hmiss. unfold eval_mode. rewrite He.
  destruct (eval_output args) as [out|].
  - destruct Hmiss as [Hmiss|Hmiss]; [discriminate Hmiss|].
    rewrite Hmiss. by eexists.
  - by eexists.
Qed.

(** C4 (as amended). An invalid [--features] or [--track] value makes the
    script fail with an [AssertionError] before any run directory is
    created: at most the directory [models] is new.  A missing
    [--eval_output] or [--model_path] under [--eval] makes it fail with an
    [AssertionError] too, but only in the evaluation branch, after
    [models/<run_id>] has been created; [logs/<run_id>] has not been
    created then. *)
Theorem config_errors (w : World) (args : Args) (s s0 s1 : state) :
  (str_in (features args) ["mfcc"; "spect"; "cqcc"] = false \/
   str_in (track args) ["logical"; "physical"] = false ->
   exists msg : string,
     (main w args s).1 = Raise (AssertionError msg) /\
     (forall q : string,
        q ∈ fs (main w args s).2 -> q ∈ fs s \/ q = "models") /\
     (model_save_path w args ∈ fs (main w args s).2 ->
        model_save_path w args ∈ fs s) /\
     (log_dir w args ∈ fs (main w args s).2 -> log_dir w args ∈ fs s))
  /\
  (arg_eval args = true ->
   eval_output args = None \/ model_path args = None ->
   setup w args s = (Ok tt, s0) -> build w args s0 = (Ok tt, s1) ->
   exists msg : string,
     (main w args s).1 = Raise (AssertionError msg) /\
     model_save_path w args ∈ fs (main w args s).2 /\
     (forall q : string,
        q ∈ fs (main w args s).2 ->
        q ∈ fs s \/ q = "models" \/ q = model_save_path w args) /\
     (log_dir w args ∈ fs (main w args s).2 -> log_dir w args ∈ fs s)).
Proof.
  split.
  - intros Hbad.
    assert (exists msg, setup w args s
              = (Raise (AssertionError msg), with_models_dir s)) as [msg Hs].
    { destruct (str_in (features args) ["mfcc"; "spect"; "cqcc"]) eqn:Hf.
      - destruct Hbad as [Hbad|Ht]; [discriminate Hbad|].
        eexists. by apply setup_bad_track.
      - eexists. by apply setup_bad_features. }
    exists msg. rewrite (main_setup_raises _ _ _ _ _ Hs). cbn [fst snd].
    assert (Hq : forall q, q ∈ fs (with_models_dir s) -> q ∈ fs s \/ q = "models")
      by (intros q; apply with_models_dir_fs).
    split; [reflexivity|]. split; [exact Hq|].
    destruct (models_is_not_run_dir (model_tag w args)) as [Hn1 Hn2].
    split; intros [H|H]%Hq; try exact H.
    + by destruct Hn1.
    + by destruct Hn2.
  - intros He Hmiss Hsetup Hbuild.
    destruct (eval_mode_missing_path w args s1 He Hmiss) as [msg Hev].
    exists msg.
    assert (Hmain : main w args s = (Raise (AssertionError msg), s1)).
    { unfold main, before_try.
      apply bind_Raise. rewrite (bind_Ok _ _ _ _ _ Hsetup).
      rewrite (bind_Ok _ _ _ _ _ Hbuild). by apply bind_Raise. }
    rewrite Hmain. cbn [fst snd].
    pose proof (keeps_fs_build w args s0) as Hb. rewrite Hbuild in Hb.
    cbn [snd] in Hb. rewrite Hb.
    assert (Hq : forall q, q ∈ fs s0 ->
                   q ∈ fs s \/ q = "models" \/ q = model_save_path w args).
    { intros q Hq. apply setup_created. by rewrite Hsetup. }
    split; [reflexivity|]. split; [by apply (setup_Ok w args s)|].
    split; [exact Hq|].
    intros [H|[H|H]]%Hq; [exact H| |]; discriminate H.
Qed.

Lemma config_errors_witness :
  (exists msg : string,
     (main quiet_world bad_features_args empty_state).1
     = Raise (AssertionError msg) /\
     (forall q : string,
        q ∈ fs (main quiet_world bad_features_args empty_state).2 ->
        q ∈ fs empty_state \/ q = "models") /\
     (model_save_path quiet_world bad_features_args
        ∈ fs (main quiet_world bad_features_args empty_state).2 ->
      model_save_path quiet_world bad_features_args ∈ fs empty_state) /\
     (log_dir quiet_world bad_features_args
        ∈ fs (main quiet_world bad_features_args empty_state).2 ->
      log_dir quiet_world bad_features_args ∈ fs empty_state))
  /\
  (exists msg : string,
     (main quiet_world eval_without_paths empty_state).1
     = Raise (AssertionError msg) /\
     model_save_path quiet_world eval_without_paths
       ∈ fs (main quiet_world eval_without_paths empty_state).2 /\
     (forall q : string,
        q ∈ fs (main quiet_world eval_without_paths empty_state).2 ->
        q ∈ fs empty_state \/ q = "models"
        \/ q = model_save_path quiet_world eval_without_paths) /\
     (log_dir quiet_world eval_without_paths
        ∈ fs (main quiet_world eval_without_paths empty_state).2 ->
      log_dir quiet_world eval_without_paths ∈ fs empty_state)).
Proof.
  split.
  - apply (proj1 (config_errors quiet_world bad_features_args
                    empty_state empty_state empty_state)).
    left. vm_compute. reflexivity.
  - apply (proj2 (config_errors quiet_world eval_without_paths empty_state
                    (setup quiet_world eval_without_paths empty_state).2
                    (build quiet_world eval_without_paths
                       (setup quiet_world eval_without_paths empty_state).2).2)).
    + reflexivity.
    + left. reflexivity.
    + vm_compute. reflexivity.
    + vm_compute. reflexivity.
Defined.

(** C4 as the specification words it: with [--eval] and no
    [--eval_output] the script fails on the assertion of the evaluation
    branch, and the run's model directory, absent before, exists by then. *)
Lemma eval_config_error_after_mkdir :
  arg_eval eval_without_paths = true /\
  eval_output eval_without_paths = None /\
  (model_save_path quiet_world eval_without_paths ∉ fs empty_state) /\
  (main quiet_world eval_without_paths empty_state).1
  = Raise (AssertionError "You must provide an output path") /\
  (model_save_path quiet_world eval_without_paths
     ∈ fs (main quiet_world eval_without_paths empty_state).2).
Proof.
  split; [reflexivity|]. split; [reflexivity|].
  split; [apply not_elem_of_empty|].
  split; [vm_compute; reflexivity|].
  apply (bool_decide_unpack _). vm_compute. exact I.
Qed.

(** *** An unrecognized model name *)

Lemma select_model_cls_unknown (name : string) :
  str_in name recognized_model_names = false -> select_model_cls name = None.
Proof.
  unfold str_in, recognized_model_names, select_model_cls. cbn [existsb].
  intros H. repeat (apply orb_false_elim in H as [-> H]). reflexivity.
Qed.

(** C10 (as amended). For a [--model_name] outside the seven recognized
    names no branch of the dispatch assigns [model_cls], and a run that gets
    as far as constructing the model (the setup of lines 206-221 went
    through, which created the run's model directory, and the development
    set was built) fails there with the [NameError] of the unassigned name;
    the run's model directory exists at that point. *)
Theorem unknown_model_name (w : World) (args : Args) (s s0 : state) :
  str_in (model_name args) recognized_model_names = false ->
  select_model_cls (model_name args) = None /\
  (setup w args s = (Ok tt, s0) -> dev_set_ctor w = None ->
   (main w args s).1 = Raise (NameError "model_cls") /\
   exit_status (main w args s).1 = 1 /\
   model_save_path w args ∈ fs (main w args s).2).
Proof.
  intros Hname. pose proof (select_model_cls_unknown _ Hname) as Hsel.
  split; [exact Hsel|]. intros Hsetup Hdev.
  assert (Hbuild : build w args s0
            = (Raise (NameError "model_cls"),
               mkState (fs s0) (stdout s0 ++ [device w]))).
  { unfold build. rewrite Hsel, Hdev. reflexivity. }
  assert (Hmain : main w args s
            = (Raise (NameError "model_cls"),
               mkState (fs s0) (stdout s0 ++ [device w]))).
  { unfold main, before_try. apply bind_Raise.
    rewrite (bind_Ok _ _ _ _ _ Hsetup). by apply bind_Raise. }
  rewrite Hmain. cbn [fst snd fs].
  split; [reflexivity|]. split; [reflexivity|].
  by apply (setup_Ok w args s).
Qed.

Lemma unknown_model_name_witness :
  select_model_cls (model_name unknown_model_args) = None /\
  (main quiet_world unknown_model_args empty_state).1
  = Raise (NameError "model_cls") /\
  exit_status (main quiet_world unknown_model_args empty_state).1 = 1 /\
  model_save_path quiet_world unknown_model_args
    ∈ fs (main quiet_world unknown_model_args empty_state).2.
Proof.
  assert (Hname : str_in (model_name unknown_model_args)
                    recognized_model_names = false)
    by (vm_compute; reflexivity).
  destruct (unknown_model_name quiet_world unknown_model_args empty_state
              (setup quiet_world unknown_model_args empty_state).2 Hname)
    as [Hsel Hrun].
  split; [exact Hsel|].
  apply Hrun; vm_compute; reflexivity.
Defined.

(** C10 as the specification words it: a model name with a ['/'] in it is
    outside the seven names, yet the run does not get to the construction of
    the model. [os.mkdir] of line 221 fails for want of the parent
    directory: no [NameError], and no run directory. *)
Lemma unknown_model_name_mkdir_fails :
  str_in (model_name slash_model_args) recognized_model_names = false /\
  (main quiet_world slash_model_args empty_state).1
  = Raise (FileNotFoundError "models/model_physical_spect_a/b_100_30_0.0001") /\
  (main quiet_world slash_model_args empty_state).1
  <> Raise (NameError "model_cls") /\
  (model_save_path quiet_world slash_model_args
     ∉ fs (main quiet_world slash_model_args empty_state).2) /\
  elements (fs (main quiet_world slash_model_args empty_state).2) = ["models"].
Proof.
  split; [vm_compute; reflexivity|].
  split; [vm_compute; reflexivity|].
  split; [vm_compute; intros H; discriminate H|].
  split; [|vm_compute; reflexivity].
  intros H. apply (bool_decide_pack _) in H. vm_compute in H. exact H.
Qed.

Example unknown_model_run :
  (main quiet_world unknown_model_args empty_state).1
  = Raise (NameError "model_cls") /\
  elements (fs (main quiet_world unknown_model_args empty_state).2)
  = ["models/model_physical_spect_lcnn_100_30_0.0001"; "models"].
Proof. split; vm_compute; reflexivity. Qed.

(** ** Scoring *)

Lemma concat_batches_aux {A : Type} (fuel n : nat) (l : list A) :
  (0 < n)%nat -> (length l <= fuel)%nat -> concat (batches_aux fuel n l) = l.
Proof.
  intros Hn. revert l. induction fuel as [|fuel IH]; intros l Hl.
  - destruct l; [reflexivity|simpl in Hl; lia].
  - destruct l as [|a l]; [reflexivity|].
    cbn [batches_aux concat]. rewrite IH.
    + apply take_drop.
    + rewrite length_drop. simpl in *. lia.
Qed.

(** The batches of the loader are the samples, in order. *)
Lemma concat_data_loader {A : Type} (n : nat) (l : list A) :
  (0 < n)%nat -> concat (data_loader n l) = l.
Proof. intros Hn. by apply concat_batches_aux. Qed.

Lemma map_result_lookup_sysid {X : Type} (ds : dataset X) (l : list (sample X)) :
  Forall (fun s => is_Some (sysid_dict_inv ds !! meta_sysid s)) l ->
  map_result (fun s => lookup_sysid ds (meta_sysid s)) l
  = Ok (map (sysname_of ds) l).
Proof.
  induction 1 as [|s l [name Hs] _ IH]; [reflexivity|].
  cbn [map_result map]. unfold lookup_sysid at 1, sysname_of at 1.
  rewrite Hs. cbn [rbind default]. rewrite IH. reflexivity.
Qed.

Lemma eval_batches_lists {X : Type} (ds : dataset X)
    (model : list X -> list (Q * Q)) (bs : list (list (sample X)))
    (acc : eval_lists) :
  Forall (fun s => is_Some (sysid_dict_inv ds !! meta_sysid s)) (concat bs) ->
  eval_batches ds model acc bs
  = Ok {| fname_list := fname_list acc ++ map meta_fname (concat bs);
          key_list := key_list acc
                        ++ map (fun s => spec_key (meta_key s)) (concat bs);
          sys_id_list := sys_id_list acc ++ map (sysname_of ds) (concat bs);
          score_list := score_list acc
                          ++ map spec_score (model_outputs model bs) |}.
Proof.
  revert acc. induction bs as [|b bs IH]; intros acc Hall.
  - destruct acc. cbn. by rewrite !app_nil_r.
  - cbn [concat] in Hall. apply Forall_app in Hall as [Hb Hbs].
    cbn [eval_batches]. unfold eval_batch.
    rewrite (map_result_lookup_sysid ds b Hb). cbn [rbind].
    rewrite (IH _ Hbs). cbn [fname_list key_list sys_id_list score_list].
    unfold model_outputs. cbn [concat map].
    by rewrite !map_app, !app_assoc.
Qed.

Lemma zip4_fmap {A B1 B2 B3 C D : Type} (f : A -> B1) (g : A -> B2)
    (h : A -> B3) (k : C -> D) (l : list A) (o : list C) :
  zip (map f l) (zip (map g l) (zip (map h l) (map k o)))
  = map (fun so => (f so.1, (g so.1, (h so.1, k so.2)))) (zip l o).
Proof.
  revert o. induction l as [|a l IH]; intros [|c o]; cbn; try reflexivity.
  by rewrite IH.
Qed.

Lemma length_model_outputs {X : Type} (model : list X -> list (Q * Q))
    (bs : list (list (sample X))) :
  (forall b : list X, length (model b) = length b) ->
  length (model_outputs model bs) = length (concat bs).
Proof.
  intros Hm. unfold model_outputs. induction bs as [|b bs IH]; [reflexivity|].
  cbn [map concat]. rewrite !length_app, IH, Hm, length_map. reflexivity.
Qed.

Lemma write_line_spec {X : Type} (repr : Q -> string) (ds : dataset X)
    (s : sample X) (out : Q * Q) :
  write_line repr (ds_is_eval ds)
    (meta_fname s, (sysname_of ds s, (spec_key (meta_key s), spec_score out)))
  = spec_line repr (ds_is_eval ds) s (sysname_of ds s) out.
Proof. unfold write_line, spec_line. by destruct (ds_is_eval ds). Qed.

(** C5. For a data set whose samples all have their system id index in
    [sysid_dict_inv] and a model that returns one output row per input,
    [produce_evaluation_file] writes exactly one line per sample, in the
    order of the samples; the line of a sample carries the score
    [logit of class 1 - logit of class 0] of its output row, in the form
    [filename system_id key score] when the set is not blind, the key being
    [bonafide] for the label 1 and [spoof] otherwise, and in the form
    [filename score] when it is blind. *)
Theorem produce_evaluation_file_lines {X : Type} (repr : Q -> string)
    (ds : dataset X) (model : list X -> list (Q * Q)) :
  (forall b : list X, length (model b) = length b) ->
  Forall (fun s => is_Some (sysid_dict_inv ds !! meta_sysid s)) (samples ds) ->
  exists lines : list string,
    produce_evaluation_file repr ds model = Ok lines /\
    length lines = length (samples ds) /\
    forall (i : nat) (s : sample X),
      samples ds !! i = Some s ->
      exists (out : Q * Q) (sysname : string),
        model_outputs model (data_loader 32 (samples ds)) !! i = Some out /\
        sysid_dict_inv ds !! meta_sysid s = Some sysname /\
        lines !! i
        = Some (if ds_is_eval ds
                then meta_fname s +:+ " " +:+ repr (snd out - fst out)%Q +:+ nl
                else meta_fname s +:+ " " +:+ sysname +:+ " "
                       +:+ (if meta_key s =? 1 then "bonafide" else "spoof")
                       +:+ " " +:+ repr (snd out - fst out)%Q +:+ nl).
Proof.
  intros Hmodel Hsys.
  pose proof (concat_data_loader 32 (samples ds) ltac:(lia)) as Hcat.
  set (bs := data_loader 32 (samples ds)) in *.
  set (outs := model_outputs model bs).
  assert (Hlen : length outs = length (samples ds)).
  { unfold outs. rewrite length_model_outputs by exact Hmodel. by rewrite Hcat. }
  eexists. split.
  { unfold produce_evaluation_file. fold bs.
    rewrite eval_batches_lists by (rewrite Hcat; exact Hsys).
    cbn [rbind fname_list key_list sys_id_list score_list app].
    rewrite Hcat. fold outs. rewrite zip4_fmap, map_map. reflexivity. }
  split.
  { rewrite length_map, length_zip_with. lia. }
  intros i s Hi.
  assert (is_Some (outs !! i)) as [out Hout].
  { apply lookup_lt_is_Some. rewrite Hlen. by eapply lookup_lt_Some. }
  rewrite Forall_forall in Hsys.
  destruct (Hsys s) as [sysname Hname];
    [by eapply list_elem_of_lookup_2|].
  exists out, sysname. split; [exact Hout|]. split; [exact Hname|].
  rewrite list_lookup_fmap.
  assert (Hz : zip (samples ds) outs !! i = Some (s, out))
    by (apply lookup_zip_with_Some; exists s, out; auto).
  rewrite Hz.
  cbn [fmap option_fmap option_map fst snd].
  rewrite write_line_spec. unfold spec_line, sysname_of, spec_key, spec_score.
  rewrite Hname. reflexivity.
Qed.

Example two_samples_file :
  produce_evaluation_file toy_repr two_samples toy_model
  = Ok ["LA_D_0001 - bonafide 8" +:+ nl; "LA_D_0002 A03 spoof 9" +:+ nl].
Proof. vm_compute. reflexivity. Qed.

Lemma produce_evaluation_file_lines_witness :
  exists lines : list string,
    produce_evaluation_file toy_repr two_samples toy_model = Ok lines /\
    length lines = length (samples two_samples) /\
    forall (i : nat) (s : sample Z),
      samples two_samples !! i = Some s ->
      exists (out : Q * Q) (sysname : string),
        model_outputs toy_model (data_loader 32 (samples two_samples)) !! i
        = Some out /\
        sysid_dict_inv two_samples !! meta_sysid s = Some sysname /\
        lines !! i
        = Some (if ds_is_eval two_samples
                then meta_fname s +:+ " " +:+ toy_repr (snd out - fst out)%Q +:+ nl
                else meta_fname s +:+ " " +:+ sysname +:+ " "
                       +:+ (if meta_key s =? 1 then "bonafide" else "spoof")
                       +:+ " " +:+ toy_repr (snd out - fst out)%Q +:+ nl).
Proof.
  apply (produce_evaluation_file_lines toy_repr two_samples toy_model).
  - intros b. unfold toy_model. apply length_map.
  - repeat (apply Forall_cons; split); [| |apply Forall_nil];
      apply (bool_decide_unpack _); vm_compute; exact I.
Defined.

(** ** Training *)

Lemma inject_Z_Zsum_cons (z : Z) (l : list Z) :
  (inject_Z (Zsum (z :: l)) == inject_Z z + inject_Z (Zsum l))%Q.
Proof. cbn [Zsum fold_right]. by rewrite inject_Z_plus. Qed.

(** What the loop has accumulated after the batches [bs], from any
    accumulator. *)
Lemma fold_train_batch {X P O T : Type} (t : Torch X P O T) (weight : list Q)
    (bs : list (list (X * Z))) (acc : train_acc P O) :
  let r := fold_left (train_batch t weight) bs acc in
  (running_loss r
     == running_loss acc
        + Qsum (epoch_losses t weight (params acc) (optim acc) bs))%Q /\
  (num_correct r
     == num_correct acc
        + inject_Z (Zsum (epoch_corrects t (params acc) (optim acc) bs)))%Q /\
  (num_total r == num_total acc + inject_Z (Zsum (batch_sizes bs)))%Q /\
  params r = train_final t (params acc) (optim acc) bs.
Proof.
  revert acc. induction bs as [|b bs IH]; intros acc.
  - cbn. repeat split; try ring.
  - cbn [fold_left]. specialize (IH (train_batch t weight acc b)).
    cbn zeta in IH. destruct IH as (IHl & IHc & IHt & IHp).
    unfold epoch_losses, epoch_corrects, batch_sizes in *.
    cbn [train_trace train_final map].
    unfold train_batch in *.
    destruct (adam_update t (optim acc) (params acc) (map fst b) (map snd b))
      as [o' p'] eqn:Hupd.
    cbn [running_loss num_correct num_total params optim] in *.
    cbn [zip_with Qsum fold_right fst].
    rewrite !inject_Z_Zsum_cons.
    split; [|split; [|split]].
    + rewrite IHl. unfold batch_loss_at, Qsum. ring.
    + rewrite IHc. unfold batch_correct_at. ring.
    + rewrite IHt. ring.
    + exact IHp.
Qed.

Lemma spec_num_correct_shift (p y : Z) (pred labels : list Z) (start n : nat) :
  length (filter (fun i => (p :: pred) !! i = (y :: labels) !! i)
            (seq (S start) n))
  = length (filter (fun i => pred !! i = labels !! i) (seq start n)).
Proof.
  revert start. induction n as [|n IH]; intros start; [reflexivity|].
  cbn [seq]. rewrite !filter_cons. cbn [lookup list_lookup].
  destruct (decide (pred !! start = labels !! start));
    cbn [length]; by rewrite IH.
Qed.

Lemma spec_num_correct_nil (pred labels : list Z) (start n : nat) :
  pred = [] -> (start + n <= length labels)%nat ->
  filter (fun i => pred !! i = labels !! i) (seq start n) = [].
Proof.
  intros ->. revert start. induction n as [|n IH]; intros start Hn; [reflexivity|].
  cbn [seq]. rewrite filter_cons.
  destruct (decide (@nil Z !! start = labels !! start)) as [H|_].
  - rewrite lookup_nil in H. symmetry in H. apply lookup_ge_None in H. lia.
  - apply IH. lia.
Qed.

(** What line 138 counts is the number of correctly predicted samples of
    the batch. *)
Lemma count_equal_spec (pred labels : list Z) :
  count_equal pred labels = Z.of_nat (spec_num_correct pred labels).
Proof.
  unfold count_equal, spec_num_correct. f_equal.
  revert pred. induction labels as [|y labels IH]; intros pred.
  - destruct pred; reflexivity.
  - destruct pred as [|p pred].
    + rewrite (spec_num_correct_nil [] (y :: labels)) by (reflexivity || lia).
      reflexivity.
    + cbn [zip_with length seq]. rewrite !filter_cons.
      cbn [lookup list_lookup fst snd].
      destruct (decide (p = y)) as [->|Hne].
      * rewrite decide_True by reflexivity. cbn [length].
        by rewrite spec_num_correct_shift, <- IH.
      * rewrite decide_False by congruence.
        by rewrite spec_num_correct_shift, <- IH.
Qed.

Lemma epoch_corrects_spec {X P O T : Type} (t : Torch X P O T)
    (p : P) (o : O) (bs : list (list (X * Z))) :
  Zsum (epoch_corrects t p o bs) = spec_epoch_correct t p o bs.
Proof.
  revert p o. induction bs as [|b bs IH]; intros p o; [reflexivity|].
  unfold epoch_corrects in *. cbn [train_trace spec_epoch_correct].
  destruct (adam_update t o p (map fst b) (map snd b)) as [o' p'].
  cbn [zip_with Zsum fold_right fst]. unfold Zsum in IH. rewrite IH.
  unfold batch_correct_at. by rewrite count_equal_spec.
Qed.

(** C6. Each call of [train_epoch] on a loader with at least one sample
    builds its optimizer anew from the model's parameters and the learning
    rate: the batches are met with the parameters and optimizer states that
    start from [adam_init] of the model handed over, whatever an earlier
    call left. The loss of a batch is the negative log-likelihood with the
    class weights 1.0 and 9.0 of the log-softmax of the model's output, and
    the pair returned is the sum over the batches of batch loss times batch
    size, divided by the number of samples, with the number of correctly
    predicted samples divided by the number of samples. *)
Theorem train_epoch_returns {X P O T : Type} (t : Torch X P O T)
    (loader : list (list (X * Z))) (model : P) (lr : Q) :
  0 < Zsum (batch_sizes loader) ->
  let fresh := adam_init t model lr in
  exists loss accuracy : Q,
    train_epoch t loader model lr
    = Ok (loss, accuracy, train_final t model fresh loader) /\
    (loss == Qsum (epoch_losses t [1; 9]%Q model fresh loader)
             / inject_Z (Zsum (batch_sizes loader)))%Q /\
    (accuracy == inject_Z (spec_epoch_correct t model fresh loader)
                 / inject_Z (Zsum (batch_sizes loader)))%Q.
Proof.
  intros Hpos fresh.
  pose proof (fold_train_batch t class_weight loader
                {| running_loss := 0; num_correct := 0; num_total := 0;
                   ii := 0; params := model; optim := fresh |})
    as (Hl & Hc & Ht & Hp).
  cbn [running_loss num_correct num_total params optim] in Hl, Hc, Ht, Hp.
  rewrite epoch_corrects_spec in Hc.
  unfold train_epoch. fold fresh.
  set (acc := fold_left _ _ _) in *.
  set (total := Zsum (batch_sizes loader)) in *.
  assert (Htot : (num_total acc == inject_Z total)%Q) by (rewrite Ht; ring).
  assert (Hne : ~ (inject_Z total == 0)%Q).
  { intros H. unfold Qeq in H. simpl in H. lia. }
  assert (Hnz : Qeq_bool (num_total acc) 0 = false).
  { apply not_true_is_false. intros H%Qeq_bool_iff.
    rewrite Htot in H. by apply Hne. }
  unfold py_fdiv. rewrite Hnz. cbn [rbind].
  eexists _, _. split; [by rewrite Hp|].
  split.
  - rewrite Hl, Htot. unfold class_weight. by field.
  - rewrite Hc, Htot. by field.
Qed.

Lemma train_epoch_returns_witness :
  let fresh := adam_init toy_torch 3 (1 # 10000)%Q in
  exists loss accuracy : Q,
    train_epoch toy_torch toy_loader 3 (1 # 10000)%Q
    = Ok (loss, accuracy, train_final toy_torch 3 fresh toy_loader) /\
    (loss == Qsum (epoch_losses toy_torch [1; 9]%Q 3%Z fresh toy_loader)
             / inject_Z (Zsum (batch_sizes toy_loader)))%Q /\
    (accuracy == inject_Z (spec_epoch_correct toy_torch 3%Z fresh toy_loader)
                 / inject_Z (Zsum (batch_sizes toy_loader)))%Q.
Proof.
  apply (train_epoch_returns toy_torch toy_loader 3 (1 # 10000)%Q).
  vm_compute. reflexivity.
Defined.

(** On an empty loader the division by the number of samples raises. *)
Example train_epoch_empty_loader :
  train_epoch toy_torch [] 3 (1 # 10000) = Raise ZeroDivisionError.
Proof. reflexivity. Qed.

(** ** Features *)

Lemma has_shape_row_width (m : matrix) (r c : nat) :
  has_shape m (S r) c -> row_width m = c.
Proof.
  intros [Hlen Hrows]. destruct m as [|row m]; [discriminate Hlen|].
  by apply Forall_cons in Hrows as [Hrow _].
Qed.

Lemma has_shape_forallb (m : matrix) (r c : nat) :
  has_shape m r c -> forallb (fun row => (length row =? c)%nat) m = true.
Proof.
  intros [_ Hrows]. induction Hrows as [|row m Hrow _ IH]; [reflexivity|].
  cbn [forallb]. rewrite IH, andb_true_r. by apply Nat.eqb_eq.
Qed.

(** C9. Given the audio library's contract (on a waveform of at least one
    analysis window, [mfcc] with 24 coefficients returns 24 rows, one column
    per hop of 512 samples and one more; [delta] keeps the shape of an array
    that has at least the 9 frames of its window), [compute_mfcc_feats]
    returns, for every waveform of the fixed length that the length fitting
    produces, a feature map of exactly 72 rows: the 24 base coefficients,
    then their first derivatives, then the derivatives of those, one block
    after the other along the coefficient axis. *)
Theorem compute_mfcc_feats_rows (lib : Librosa) (x : list Q) :
  (forall y : list Q,
     2048 <= Z.of_nat (length y) ->
     exists m : matrix,
       feature_mfcc lib y 16000 24 = Ok m /\
       has_shape m 24 (Z.to_nat (1 + Z.of_nat (length y) / 512))) ->
  (forall (m : matrix) (r c : nat),
     has_shape m r c -> (0 < r)%nat -> (9 <= c)%nat ->
     exists m' : matrix, feature_delta lib m = Ok m' /\ has_shape m' r c) ->
  Z.of_nat (length x) = default_max_len ->
  exists mfcc delta delta2 feats : matrix,
    feature_mfcc lib x 16000 24 = Ok mfcc /\
    feature_delta lib mfcc = Ok delta /\
    feature_delta lib delta = Ok delta2 /\
    compute_mfcc_feats lib x = Ok feats /\
    length feats = 72%nat /\
    feats = mfcc ++ delta ++ delta2 /\
    length mfcc = 24%nat /\ length delta = 24%nat /\ length delta2 = 24%nat.
Proof.
  intros Hmfcc Hdelta Hlen. unfold default_max_len in Hlen.
  destruct (Hmfcc x ltac:(lia)) as (mfcc & Em & Hm).
  set (c := Z.to_nat (1 + Z.of_nat (length x) / 512)) in *.
  assert (Hc : (9 <= c)%nat).
  { unfold c. rewrite Hlen. apply Nat.leb_le. vm_compute. reflexivity. }
  destruct (Hdelta _ _ _ Hm ltac:(lia) Hc) as (delta & Ed & Hd).
  destruct (Hdelta _ _ _ Hd ltac:(lia) Hc) as (delta2 & Ed2 & Hd2).
  exists mfcc, delta, delta2, (mfcc ++ delta ++ delta2).
  assert (Hl : length mfcc = 24%nat /\ length delta = 24%nat
               /\ length delta2 = 24%nat)
    by (split; [apply Hm | split; [apply Hd | apply Hd2]]).
  split; [exact Em|]. split; [exact Ed|]. split; [exact Ed2|]. split.
  - unfold compute_mfcc_feats. rewrite Em. cbn [rbind].
    rewrite Ed. cbn [rbind]. rewrite Ed2. cbn [rbind].
    unfold np_concatenate_rows.
    rewrite (has_shape_row_width mfcc 23 c Hm). cbn [forallb].
    rewrite (has_shape_forallb _ _ _ Hm), (has_shape_forallb _ _ _ Hd),
      (has_shape_forallb _ _ _ Hd2).
    cbn [andb rbind concat]. by rewrite app_nil_r.
  - split; [rewrite !length_app; lia|]. split; [reflexivity|exact Hl].
Qed.

Lemma toy_librosa_mfcc (y : list Q) :
  2048 <= Z.of_nat (length y) ->
  exists m : matrix,
    feature_mfcc toy_librosa y 16000 24 = Ok m /\
    has_shape m 24 (Z.to_nat (1 + Z.of_nat (length y) / 512)).
Proof.
  intros _. eexists. split; [reflexivity|]. split.
  - apply length_replicate.
  - apply Forall_replicate, length_replicate.
Qed.

Lemma toy_librosa_delta (m : matrix) (r c : nat) :
  has_shape m r c -> (0 < r)%nat -> (9 <= c)%nat ->
  exists m' : matrix, feature_delta toy_librosa m = Ok m' /\ has_shape m' r c.
Proof.
  intros Hm _ Hc. exists m. split; [|exact Hm].
  cbn [feature_delta toy_librosa].
  assert (H : forallb (fun row => (9 <=? length row)%nat) m = true);
    [|by rewrite H].
  destruct Hm as [_ Hrows].
  induction Hrows as [|row m Hrow _ IH]; [reflexivity|].
  cbn [forallb]. rewrite IH, andb_true_r. apply Nat.leb_le. lia.
Qed.

Lemma length_fitted_waveform : Z.of_nat (length fitted_waveform) = default_max_len.
Proof.
  unfold fitted_waveform. rewrite length_replicate.
  apply Z2Nat.id. unfold default_max_len. lia.
Qed.

Lemma compute_mfcc_feats_rows_witness :
  exists mfcc delta delta2 feats : matrix,
    feature_mfcc toy_librosa fitted_waveform 16000 24 = Ok mfcc /\
    feature_delta toy_librosa mfcc = Ok delta /\
    feature_delta toy_librosa delta = Ok delta2 /\
    compute_mfcc_feats toy_librosa fitted_waveform = Ok feats /\
    length feats = 72%nat /\
    feats = mfcc ++ delta ++ delta2 /\
    length mfcc = 24%nat /\ length delta = 24%nat /\ length delta2 = 24%nat.
Proof.
  exact (compute_mfcc_feats_rows toy_librosa fitted_waveform
           toy_librosa_mfcc toy_librosa_delta length_fitted_waveform).
Defined.

(** Outside the contract the library raises, and so does the extractor: on
    a waveform of three samples the stand-in has one frame, which its
    [delta] refuses. *)
Example compute_mfcc_feats_short :
  compute_mfcc_feats toy_librosa [1; 2; 3]%Q
  = Raise (OtherError "ParameterError").
Proof. reflexivity. Qed.

(** * Further properties *)

(** ** [pad] *)

Lemma pad_Ok_length {A : Type} (x y : list A) (max_len : Z) :
  0 <= max_len -> pad x max_len = Ok y -> Z.of_nat (length y) = max_len.
Proof.
  intros H0 Hpad.
  destruct (Z.le_gt_cases max_len (Z.of_nat (length x))) as [Hle|Hgt].
  - unfold pad in Hpad.
    destruct (Z.leb_spec max_len (Z.of_nat (length x))) as [_|?]; [|lia].
    unfold py_slice_to in Hpad.
    destruct (Z.leb_spec 0 max_len) as [_|?]; [|lia].
    injection Hpad as <-. rewrite length_take. lia.
  - destruct x as [|a x].
    + unfold pad in Hpad. cbn [length] in *.
      destruct (Z.leb_spec max_len (Z.of_nat 0)) as [?|_]; [lia|].
      discriminate Hpad.
    + set (x' := a :: x) in *.
      assert (HL : (0 < length x')%nat) by (unfold x'; cbn [length]; lia).
      rewrite pad_short_eq in Hpad by assumption.
      assert (Hy : y = take (Z.to_nat max_len)
                         (repeat_each
                            (Z.to_nat (max_len / Z.of_nat (length x') + 1)) x'))
        by congruence.
      rewrite Hy, length_take, length_repeat_each.
      pose proof (repeat_factor_covers max_len (Z.of_nat (length x'))
                    ltac:(lia) H0).
      assert (0 <= max_len / Z.of_nat (length x')) by (apply Z.div_pos; lia).
      nia.
Qed.

Lemma pad_nil_raises {A : Type} (max_len : Z) :
  0 < max_len -> pad (@nil A) max_len = Raise ZeroDivisionError.
Proof.
  intros H. unfold pad. cbn [length].
  destruct (Z.leb_spec max_len (Z.of_nat 0)) as [?|_]; [lia|]. reflexivity.
Qed.

(** [pad] fails on one kind of input only, the empty waveform with a
    positive target length, and then with [ZeroDivisionError]; on every
    other input, a negative target length included, it returns. *)
Theorem pad_raises_iff {A : Type} (x : list A) (max_len : Z) :
  match pad x max_len with
  | Ok _ => ~ (x = [] /\ 0 < max_len)
  | Raise e => e = ZeroDivisionError /\ x = [] /\ 0 < max_len
  end.
Proof.
  destruct (Z.le_gt_cases max_len (Z.of_nat (length x))) as [Hle|Hgt].
  - unfold pad.
    destruct (Z.leb_spec max_len (Z.of_nat (length x))) as [_|?]; [|lia].
    intros [-> Hpos]. cbn [length] in Hle. lia.
  - destruct x as [|a x].
    + rewrite pad_nil_raises by (cbn [length] in Hgt; lia).
      cbn [length] in Hgt. repeat split; lia.
    + rewrite pad_short_eq by (cbn [length] in *; lia).
      intros [Hnil _]. discriminate Hnil.
Qed.

(** Fitting a waveform that has been fitted to the same length changes
    nothing. *)
Theorem pad_idempotent {A : Type} (x y : list A) (max_len : Z) :
  0 <= max_len -> pad x max_len = Ok y -> pad y max_len = Ok y.
Proof.
  intros H0 Hpad. pose proof (pad_Ok_length x y max_len H0 Hpad) as Hlen.
  unfold pad.
  destruct (Z.leb_spec max_len (Z.of_nat (length y))) as [_|?]; [|lia].
  unfold py_slice_to.
  destruct (Z.leb_spec 0 max_len) as [_|?]; [|lia].
  rewrite take_ge by lia. reflexivity.
Qed.

Lemma pad_idempotent_witness :
  pad [10; 10; 10; 20; 20] 5 = Ok [10; 10; 10; 20; 20].
Proof.
  apply (pad_idempotent [10; 20] [10; 10; 10; 20; 20] 5); [lia|reflexivity].
Defined.

(** ** The loader and [epoch_size] *)

Lemma batches_aux_nil {A : Type} (fuel n : nat) :
  batches_aux fuel n (@nil A) = [].
Proof. by destruct fuel. Qed.

Lemma batches_aux_bounds {A : Type} (fuel n : nat) (l : list A) :
  (0 < n)%nat ->
  Forall (fun b => (0 < length b <= n)%nat) (batches_aux fuel n l).
Proof.
  intros Hn. revert l. induction fuel as [|fuel IH]; intros l; [constructor|].
  destruct l as [|a l]; [constructor|].
  cbn [batches_aux]. constructor; [|apply IH].
  rewrite length_take. cbn [length]. lia.
Qed.

(** The batches of the loader are never empty and never longer than the
    batch size, and put one after the other they are the data set. *)
Lemma data_loader_batches {A : Type} (n : nat) (l : list A) :
  (0 < n)%nat ->
  Forall (fun b => (0 < length b <= n)%nat) (data_loader n l) /\
  concat (data_loader n l) = l.
Proof.
  intros Hn. split; [by apply batches_aux_bounds|by apply concat_data_loader].
Qed.

Lemma length_batches_aux {A : Type} (fuel n : nat) (l : list A) :
  (0 < n)%nat -> (length l <= fuel)%nat ->
  Z.of_nat (length (batches_aux fuel n l))
  = (Z.of_nat (length l) + Z.of_nat n - 1) / Z.of_nat n.
Proof.
  intros Hn. revert l. induction fuel as [|fuel IH]; intros l Hl.
  - destruct l; [|cbn [length] in Hl; lia]. cbn [batches_aux length].
    symmetry. apply Z.div_small. lia.
  - destruct l as [|a l].
    + cbn [batches_aux length]. symmetry. apply Z.div_small. lia.
    + cbn [batches_aux]. cbn [length] in Hl.
      change (length (?b :: ?bs)) with (S (length bs)).
      rewrite Nat2Z.inj_succ, IH by (rewrite length_drop; cbn [length]; lia).
      rewrite length_drop. cbn [length] in *.
      set (L := S (length l)) in *.
      destruct (le_lt_dec L n) as [Hsmall|Hbig].
      * replace (Z.of_nat (L - n)) with 0 by lia.
        rewrite (Z.div_small (0 + Z.of_nat n - 1)) by lia.
        change (Z.succ 0) with 1.
        apply (Z.div_unique _ _ 1 (Z.of_nat L - 1)); lia.
      * replace (Z.of_nat (L - n) + Z.of_nat n - 1) with (Z.of_nat L - 1) by lia.
        replace (Z.of_nat L + Z.of_nat n - 1)
          with (Z.of_nat L - 1 + 1 * Z.of_nat n) by lia.
        rewrite Z.div_add by lia. lia.
Qed.

Lemma Qceiling_div (a b : Z) :
  0 < b -> Qceiling (inject_Z a / inject_Z b) = (a + b - 1) / b.
Proof.
  intros Hb. unfold Qceiling.
  assert (Heq : (- (inject_Z a / inject_Z b) == inject_Z (- a) / inject_Z b)%Q).
  { rewrite inject_Z_opp. field. intros H. unfold Qeq in H. simpl in H. lia. }
  rewrite (Qfloor_comp _ _ Heq), <- Zdiv_Qdiv.
  pose proof (Z.div_mod (- a) b ltac:(lia)).
  pose proof (Z.mod_pos_bound (- a) b Hb).
  apply (Z.div_unique _ _ _ (b - 1 - (- a) mod b)); lia.
Qed.

Lemma ii_fold_train_batch {X P O T : Type} (t : Torch X P O T) (weight : list Q)
    (bs : list (list (X * Z))) (acc : train_acc P O) :
  ii (fold_left (train_batch t weight) bs acc) = ii acc + Z.of_nat (length bs).
Proof.
  revert acc. induction bs as [|b bs IH]; intros acc; cbn [fold_left length].
  - lia.
  - rewrite IH. unfold train_batch.
    destruct (adam_update t _ _ _ _). cbn [ii]. lia.
Qed.

(** The [epoch_size] of line 124 is the number of batches the loader
    yields, so the counter [ii] of the loop ends at [epoch_size] and the
    number of batches left, [epoch_size - ii], ends at zero. *)
Theorem epoch_size_counts_batches {X P O T : Type} (t : Torch X P O T)
    (n : nat) (l : list (X * Z)) (model : P) (o : O) :
  (0 < n)%nat ->
  epoch_size (Z.of_nat (length l)) (Z.of_nat n)
  = Ok (Z.of_nat (length (data_loader n l))) /\
  ii (fold_left (train_batch t class_weight) (data_loader n l)
        (mkTrainAcc 0 0 0 0 model o))
  = Z.of_nat (length (data_loader n l)).
Proof.
  intros Hn. split.
  - unfold epoch_size, py_truediv.
    destruct (Z.eqb_spec (Z.of_nat n) 0) as [?|_]; [lia|]. cbn [rbind].
    rewrite Qceiling_div by lia. unfold data_loader.
    by rewrite length_batches_aux.
  - rewrite ii_fold_train_batch. cbn [ii]. lia.
Qed.

Lemma epoch_size_counts_batches_witness :
  epoch_size (Z.of_nat (length [(1, 1); (5, 0); (2, 1)])) (Z.of_nat 2)
  = Ok (Z.of_nat (length (data_loader 2 [(1, 1); (5, 0); (2, 1)]))) /\
  ii (fold_left (train_batch toy_torch class_weight)
        (data_loader 2 [(1, 1); (5, 0); (2, 1)]) (mkTrainAcc 0 0 0 0 3 0))
  = Z.of_nat (length (data_loader 2 [(1, 1); (5, 0); (2, 1)])).
Proof.
  apply (epoch_size_counts_batches toy_torch 2 [(1, 1); (5, 0); (2, 1)] 3 0).
  lia.
Defined.

(** ** [train_epoch] and [evaluate_accuracy] *)

Lemma count_equal_bounds (pred y : list Z) :
  0 <= count_equal pred y <= Z.of_nat (length y).
Proof.
  unfold count_equal. split; [lia|].
  apply inj_le. etransitivity; [apply length_filter|].
  rewrite length_zip_with. lia.
Qed.

Lemma Zsum_batch_sizes_nonneg {A : Type} (bs : list (list A)) :
  0 <= Zsum (batch_sizes bs).
Proof.
  induction bs as [|b bs IH]; cbn [batch_sizes map Zsum fold_right]; [lia|].
  unfold batch_sizes, Zsum in IH. lia.
Qed.

Lemma Zsum_epoch_corrects_bounds {X P O T : Type} (t : Torch X P O T)
    (p : P) (o : O) (bs : list (list (X * Z))) :
  0 <= Zsum (epoch_corrects t p o bs) <= Zsum (batch_sizes bs).
Proof.
  revert p o. induction bs as [|b bs IH]; intros p o.
  - cbn. lia.
  - unfold epoch_corrects, batch_sizes in *. cbn [train_trace map].
    destruct (adam_update t o p (map fst b) (map snd b)) as [o' p'].
    cbn [zip_with Zsum fold_right fst]. specialize (IH p' o').
    unfold Zsum in IH.
    pose proof (count_equal_bounds
                  (argmax_dim1 t (log_softmax t (forward t p (map fst b))))
                  (map snd b)) as Hc.
    rewrite length_map in Hc. unfold batch_correct_at in *. lia.
Qed.

Lemma ratio_bounds (c n : Z) :
  0 <= c <= n -> 0 < n -> (0 <= inject_Z c / inject_Z n <= 1)%Q.
Proof.
  intros [Hc Hn] Hpos.
  assert (Hq : (0 < inject_Z n)%Q) by (unfold Qlt; simpl; lia).
  split.
  - apply Qle_shift_div_l; [exact Hq|]. rewrite Qmult_0_l.
    unfold Qle. simpl. lia.
  - apply Qle_shift_div_r; [exact Hq|]. rewrite Qmult_1_l.
    unfold Qle. simpl. lia.
Qed.

Lemma inject_Z_eq_0 (n : Z) : (inject_Z n == 0)%Q <-> n = 0.
Proof. unfold Qeq. simpl. lia. Qed.

Lemma train_epoch_raises_iff_aux {X P O T : Type} (t : Torch X P O T)
    (loader : list (list (X * Z))) (model : P) (lr : Q) :
  match train_epoch t loader model lr with
  | Ok _ => 0 < Zsum (batch_sizes loader)
  | Raise e => e = ZeroDivisionError /\ Zsum (batch_sizes loader) = 0
  end.
Proof.
  pose proof (fold_train_batch t class_weight loader
                (mkTrainAcc 0 0 0 0 model (adam_init t model lr)))
    as (_ & _ & Ht & _).
  cbn [num_total] in Ht. rewrite Qplus_0_l in Ht.
  pose proof (Zsum_batch_sizes_nonneg loader) as Hnn.
  unfold train_epoch, py_fdiv.
  destruct (Qeq_bool (num_total _) 0) eqn:Hz; cbn [rbind].
  - apply Qeq_bool_iff in Hz. rewrite Ht in Hz.
    split; [reflexivity|]. exact (proj1 (inject_Z_eq_0 _) Hz).
  - apply Qeq_bool_neq in Hz. rewrite Ht in Hz.
    assert (Zsum (batch_sizes loader) <> 0)
      by (intros H0; apply Hz, inject_Z_eq_0, H0).
    lia.
Qed.

(** On a loader that yields no sample [train_epoch] does not return a
    loss and an accuracy: once the optimizer and the class weights are set
    up, the loop has nothing to add to [num_total], and the division of
    line 154 raises [ZeroDivisionError]. *)
Theorem train_epoch_no_sample {X P O T : Type} (t : Torch X P O T)
    (loader : list (list (X * Z))) (model : P) (lr : Q) :
  Zsum (batch_sizes loader) = 0 ->
  train_epoch t loader model lr = Raise ZeroDivisionError.
Proof.
  intros H0. pose proof (train_epoch_raises_iff_aux t loader model lr) as H.
  destruct (train_epoch t loader model lr) as [r|e]; [lia|].
  by destruct H as [-> _].
Qed.

Lemma train_epoch_no_sample_witness :
  Zsum (batch_sizes ([] : list (list (Z * Z)))) = 0 /\
  train_epoch toy_torch [] 3 (1 # 10000) = Raise ZeroDivisionError.
Proof.
  split; [reflexivity|].
  apply (train_epoch_no_sample toy_torch [] 3 (1 # 10000)). reflexivity.
Defined.

(** The training accuracy [train_epoch] returns lies between 0 and 1. *)
Theorem train_epoch_accuracy_bounds {X P O T : Type} (t : Torch X P O T)
    (loader : list (list (X * Z))) (model model' : P) (lr loss accuracy : Q) :
  train_epoch t loader model lr = Ok (loss, accuracy, model') ->
  (0 <= accuracy <= 1)%Q.
Proof.
  intros Hrun.
  pose proof (train_epoch_raises_iff_aux t loader model lr) as Hpos.
  rewrite Hrun in Hpos.
  pose proof (fold_train_batch t class_weight loader
                (mkTrainAcc 0 0 0 0 model (adam_init t model lr)))
    as (_ & Hc & Ht & _).
  cbn [num_total num_correct params optim] in Hc, Ht.
  rewrite Qplus_0_l in Hc, Ht.
  unfold train_epoch, py_fdiv in Hrun.
  destruct (Qeq_bool (num_total _) 0); [discriminate Hrun|].
  cbn [rbind] in Hrun. injection Hrun as _ Hacc _.
  rewrite <- Hacc, Hc, Ht.
  apply ratio_bounds; [apply Zsum_epoch_corrects_bounds|exact Hpos].
Qed.

Lemma train_epoch_accuracy_bounds_witness :
  (0 <= (0 + 2 + 1) / (0 + 2 + 1) <= 1)%Q.
Proof.
  apply (train_epoch_accuracy_bounds toy_torch toy_loader 3 5 (1 # 10000)
           ((0 + 10 * 2 + 10 * 1) / (0 + 2 + 1))%Q).
  reflexivity.
Defined.

Lemma fold_accuracy_batch {X P O T : Type} (t : Torch X P O T) (p : P)
    (bs : list (list (X * Z))) (acc : accuracy_acc) :
  let r := fold_left (accuracy_batch t p) bs acc in
  (acc_correct r == acc_correct acc + inject_Z (correct_at t p bs))%Q /\
  (acc_total r == acc_total acc + inject_Z (Zsum (batch_sizes bs)))%Q.
Proof.
  revert acc. induction bs as [|b bs IH]; intros acc.
  - cbn. split; ring.
  - cbn [fold_left]. specialize (IH (accuracy_batch t p acc b)).
    cbn zeta in IH. destruct IH as [IHc IHt].
    unfold correct_at, batch_sizes in *. cbn [map].
    rewrite !inject_Z_Zsum_cons. unfold accuracy_batch in *.
    cbn [acc_correct acc_total] in *.
    split; [rewrite IHc|rewrite IHt]; ring.
Qed.

Lemma correct_at_bounds {X P O T : Type} (t : Torch X P O T) (p : P)
    (bs : list (list (X * Z))) :
  0 <= correct_at t p bs <= Zsum (batch_sizes bs).
Proof.
  unfold correct_at, batch_sizes.
  induction bs as [|b bs IH]; cbn [map Zsum fold_right]; [lia|].
  unfold Zsum in IH.
  pose proof (count_equal_bounds (argmax_dim1 t (forward t p (map fst b)))
                (map snd b)) as Hc.
  rewrite length_map in Hc. lia.
Qed.

Lemma evaluate_accuracy_value_aux {X P O T : Type} (t : Torch X P O T)
    (loader : list (list (X * Z))) (model : P) :
  match evaluate_accuracy t loader model with
  | Ok accuracy =>
      0 < Zsum (batch_sizes loader) /\
      (accuracy == inject_Z (correct_at t model loader)
                   / inject_Z (Zsum (batch_sizes loader)))%Q
  | Raise e => e = ZeroDivisionError /\ Zsum (batch_sizes loader) = 0
  end.
Proof.
  pose proof (fold_accuracy_batch t model loader (mkAccuracyAcc 0 0))
    as [Hc Ht].
  cbn [acc_correct acc_total] in Hc, Ht. rewrite Qplus_0_l in Hc, Ht.
  pose proof (Zsum_batch_sizes_nonneg loader) as Hnn.
  unfold evaluate_accuracy, py_fdiv.
  destruct (Qeq_bool (acc_total _) 0) eqn:Hz.
  - apply Qeq_bool_iff in Hz. rewrite Ht in Hz.
    split; [reflexivity|]. exact (proj1 (inject_Z_eq_0 _) Hz).
  - apply Qeq_bool_neq in Hz. rewrite Ht in Hz.
    assert (Zsum (batch_sizes loader) <> 0)
      by (intros H0; apply Hz, inject_Z_eq_0, H0).
    split; [lia|]. by rewrite Hc, Ht.
Qed.

Lemma correct_at_spec {X P O T : Type} (t : Torch X P O T) (p : P)
    (bs : list (list (X * Z))) :
  correct_at t p bs = spec_correct_at t p bs.
Proof.
  unfold correct_at, spec_correct_at. f_equal. apply map_ext.
  intros b. apply count_equal_spec.
Qed.

(** Whenever [evaluate_accuracy] returns, the loader has yielded at least
    one sample, and the value is the number of samples at which the class
    the model predicts is the label, over the number of samples; the
    parameters of the model are the same for every batch. *)
Theorem evaluate_accuracy_value {X P O T : Type} (t : Torch X P O T)
    (loader : list (list (X * Z))) (model : P) (accuracy : Q) :
  evaluate_accuracy t loader model = Ok accuracy ->
  0 < Zsum (batch_sizes loader) /\
  (accuracy == inject_Z (spec_correct_at t model loader)
               / inject_Z (Zsum (batch_sizes loader)))%Q.
Proof.
  intros Hrun. pose proof (evaluate_accuracy_value_aux t loader model) as Hv.
  rewrite Hrun in Hv. by rewrite <- correct_at_spec.
Qed.

Lemma evaluate_accuracy_value_witness :
  0 < Zsum (batch_sizes toy_loader) /\
  ((0 + 1 + 0) / (0 + 2 + 1)
   == inject_Z (spec_correct_at toy_torch 1%Z toy_loader)
      / inject_Z (Zsum (batch_sizes toy_loader)))%Q.
Proof.
  apply (evaluate_accuracy_value toy_torch toy_loader 1). reflexivity.
Defined.

(** The accuracy [evaluate_accuracy] returns lies between 0 and 1. *)
Theorem evaluate_accuracy_bounds {X P O T : Type} (t : Torch X P O T)
    (loader : list (list (X * Z))) (model : P) (accuracy : Q) :
  evaluate_accuracy t loader model = Ok accuracy -> (0 <= accuracy <= 1)%Q.
Proof.
  intros Hrun. pose proof (evaluate_accuracy_value_aux t loader model) as Hv.
  rewrite Hrun in Hv. destruct Hv as [Hpos Hacc]. rewrite Hacc.
  apply ratio_bounds; [apply correct_at_bounds|exact Hpos].
Qed.

Lemma evaluate_accuracy_bounds_witness :
  (0 <= (0 + 1 + 0) / (0 + 2 + 1) <= 1)%Q.
Proof.
  apply (evaluate_accuracy_bounds toy_torch toy_loader 1). reflexivity.
Defined.

(** ** [produce_evaluation_file] *)

Lemma map_result_sysid_cases {X : Type} (ds : dataset X) (l : list (sample X)) :
  match map_result (fun s => lookup_sysid ds (meta_sysid s)) l with
  | Ok _ => Forall (fun s => is_Some (sysid_dict_inv ds !! meta_sysid s)) l
  | Raise e =>
      e = KeyError /\
      Exists (fun s => sysid_dict_inv ds !! meta_sysid s = None) l
  end.
Proof.
  induction l as [|s l IH]; cbn [map_result]; [constructor|].
  unfold lookup_sysid at 1.
  destruct (sysid_dict_inv ds !! meta_sysid s) as [name|] eqn:Hs; cbn [rbind].
  - destruct (map_result _ l) as [names|e]; cbn [rbind].
    + constructor; [by eexists|exact IH].
    + destruct IH as [-> IH]. split; [reflexivity|by right].
  - split; [reflexivity|by left].
Qed.

Lemma eval_batches_cases {X : Type} (ds : dataset X)
    (model : list X -> list (Q * Q)) (bs : list (list (sample X)))
    (acc : eval_lists) :
  match eval_batches ds model acc bs with
  | Ok _ =>
      Forall (fun s => is_Some (sysid_dict_inv ds !! meta_sysid s)) (concat bs)
  | Raise e =>
      e = KeyError /\
      Exists (fun s => sysid_dict_inv ds !! meta_sysid s = None) (concat bs)
  end.
Proof.
  revert acc. induction bs as [|b bs IH]; intros acc; cbn [eval_batches concat].
  - constructor.
  - unfold eval_batch. pose proof (map_result_sysid_cases ds b) as Hb.
    destruct (map_result _ b) as [names|e]; cbn [rbind].
    + match goal with |- context [eval_batches ds model ?a bs] =>
        specialize (IH a); destruct (eval_batches ds model a bs) end.
      * by apply Forall_app.
      * destruct IH as [-> IH]. split; [reflexivity|].
        apply Exists_app. by right.
    + destruct Hb as [-> Hb]. split; [reflexivity|].
      apply Exists_app. by left.
Qed.

(** [produce_evaluation_file] returns only if the system id index of
    every sample is a key of [sysid_dict_inv]: the names are looked up for
    each batch, for a blind set too, whose lines do not show the system
    id. *)
Theorem produce_evaluation_file_needs_sysid {X : Type} (repr : Q -> string)
    (ds : dataset X) (model : list X -> list (Q * Q)) (lines : list string) :
  produce_evaluation_file repr ds model = Ok lines ->
  Forall (fun s => is_Some (sysid_dict_inv ds !! meta_sysid s)) (samples ds).
Proof.
  intros Hrun. unfold produce_evaluation_file in Hrun.
  pose proof (eval_batches_cases ds model (data_loader 32 (samples ds))
                (mkEvalLists [] [] [] [])) as H.
  rewrite (concat_data_loader 32 (samples ds)) in H by lia.
  destruct (eval_batches _ _ _ _); [exact H|discriminate Hrun].
Qed.

Lemma produce_evaluation_file_needs_sysid_witness :
  Forall (fun s => is_Some (sysid_dict_inv two_samples !! meta_sysid s))
         (samples two_samples).
Proof.
  eapply (produce_evaluation_file_needs_sysid toy_repr two_samples
            (map (fun x => (inject_Z x, inject_Z (2 * x + 1))))).
  reflexivity.
Defined.

Lemma zip_map_self {A B : Type} (g : A -> B) (l : list A) :
  zip l (map g l) = map (fun a => (a, g a)) l.
Proof. induction l as [|a l IH]; cbn; [reflexivity|by rewrite IH]. Qed.

Lemma model_outputs_map {X : Type} (f : X -> Q * Q)
    (bs : list (list (sample X))) :
  model_outputs (map f) bs = map (fun s => f (sample_x s)) (concat bs).
Proof.
  unfold model_outputs. induction bs as [|b bs IH]; [reflexivity|].
  cbn [map concat]. by rewrite IH, map_app, map_map.
Qed.

(** For a model that treats each input of a batch on its own, the file
    does not depend on how the loader cuts the data set into batches: it
    has the line of each sample, computed from that sample alone, in the
    order of the data set. *)
Theorem produce_evaluation_file_per_sample {X : Type} (repr : Q -> string)
    (ds : dataset X) (f : X -> Q * Q) :
  Forall (fun s => is_Some (sysid_dict_inv ds !! meta_sysid s)) (samples ds) ->
  produce_evaluation_file repr ds (map f)
  = Ok (map (fun s => spec_line repr (ds_is_eval ds) s (sysname_of ds s)
                        (f (sample_x s)))
            (samples ds)).
Proof.
  intros Hsys.
  pose proof (concat_data_loader 32 (samples ds) ltac:(lia)) as Hcat.
  unfold produce_evaluation_file.
  rewrite eval_batches_lists by (rewrite Hcat; exact Hsys).
  cbn [rbind fname_list key_list sys_id_list score_list app].
  rewrite model_outputs_map, Hcat, zip4_fmap, zip_map_self, !map_map.
  f_equal. apply map_ext. intros s. cbn [fst snd].
  apply write_line_spec.
Qed.

Lemma produce_evaluation_file_per_sample_witness :
  produce_evaluation_file toy_repr two_samples
    (map (fun x => (inject_Z x, inject_Z (2 * x + 1))))
  = Ok (map (fun s => spec_line toy_repr (ds_is_eval two_samples) s
                        (sysname_of two_samples s)
                        ((fun x => (inject_Z x, inject_Z (2 * x + 1)))
                           (sample_x s)))
            (samples two_samples)).
Proof.
  apply (produce_evaluation_file_per_sample toy_repr two_samples
           (fun x => (inject_Z x, inject_Z (2 * x + 1)))).
  repeat (apply Forall_cons; split); [| |apply Forall_nil];
    apply (bool_decide_unpack _); vm_compute; exact I.
Defined.

(** ** The driver script, continued *)

(** The values the assertion of line 210 lets through are the values the
    dispatch of lines 223-228 has a branch for, so past the assertion the
    name [feature_fn] is bound; and the names the dispatch of lines 230-243
    binds [model_cls] for are the seven recognized ones. *)
Theorem dispatch_covers (features name : string) :
  (str_in features ["mfcc"; "spect"; "cqcc"] = true
   <-> is_Some (select_feature_fn features)) /\
  (str_in name recognized_model_names = true
   <-> is_Some (select_model_cls name)).
Proof.
  unfold str_in, recognized_model_names, select_feature_fn, select_model_cls.
  cbn [existsb]. split.
  - destruct (String.eqb features "mfcc"); [by split; eauto|].
    destruct (String.eqb features "spect"); [by split; eauto|].
    destruct (String.eqb features "cqcc"); [by split; eauto|].
    split; [discriminate|]. by intros [? ?].
  - destruct (String.eqb name "mfcc"); [by split; eauto|].
    destruct (String.eqb name "spect"); [by split; eauto|].
    destruct (String.eqb name "cqcc"); [by split; eauto|].
    destruct (String.eqb name "resnet18"); [by split; eauto|].
    destruct (String.eqb name "mobilenet_v2"); [by split; eauto|].
    destruct (String.eqb name "senet50"); [by split; eauto|].
    destruct (String.eqb name "senet20"); [by split; eauto|].
    split; [discriminate|]. by intros [? ?].
Qed.

Lemma ensure_dir_present (p : string) (s : state) :
  p ∈ fs s -> ensure_dir p s = (Ok tt, s).
Proof.
  intros Hp. unfold ensure_dir, bind, path_exists.
  by rewrite bool_decide_eq_true_2.
Qed.

Lemma py_assert_Ok (c : bool) (msg : string) (s s' : state) :
  py_assert c msg s = (Ok tt, s') -> c = true /\ s' = s.
Proof. destruct c; cbn; intros H; by inversion H. Qed.

(** The setup of lines 206-221 can be repeated: after a run of it that
    went through, a second run goes through as well and changes nothing, the
    directories being there already. *)
Theorem setup_idempotent (w : World) (args : Args) (s s' : state) :
  setup w args s = (Ok tt, s') -> setup w args s' = (Ok tt, s').
Proof.
  intros Hsetup. pose proof (setup_Ok _ _ _ _ Hsetup) as Hrun.
  unfold setup in Hsetup.
  rewrite (bind_Ok _ _ _ _ _ (ensure_models_dir s)) in Hsetup.
  apply bind_inv_Ok in Hsetup as ([] & s2 & [Hf ->]%py_assert_Ok & Hsetup).
  apply bind_inv_Ok in Hsetup as ([] & s3 & [Ht ->]%py_assert_Ok & Hsetup).
  assert (Hmodels : "models" ∈ fs s').
  { pose proof (grows_ensure_dir (model_save_path w args)
                  (with_models_dir s) "models") as Hg.
    rewrite Hsetup in Hg. apply Hg, with_models_dir_fs. by right. }
  unfold setup.
  rewrite (bind_Ok _ _ _ _ _ (ensure_dir_present "models" s' Hmodels)).
  rewrite Hf, Ht. cbn [py_assert].
  rewrite (bind_Ok _ _ s' s' tt) by reflexivity.
  rewrite (bind_Ok _ _ s' s' tt) by reflexivity.
  by apply ensure_dir_present.
Qed.

Lemma setup_idempotent_witness :
  setup quiet_world default_args
    (setup quiet_world default_args empty_state).2
  = (Ok tt, (setup quiet_world default_args empty_state).2).
Proof.
  apply (setup_idempotent quiet_world default_args empty_state).
  vm_compute. reflexivity.
Defined.

(** *** Checkpoints *)

Lemma dirname_aux_None_cons (c : ascii) (r : string) :
  dirname_aux (String c r) = None <->
  dirname_aux r = None /\ Ascii.eqb c "/" = false.
Proof.
  cbn [dirname_aux]. destruct (dirname_aux r); [by split; [|intros []]|].
  destruct (Ascii.eqb c "/"); by split; [|intros []].
Qed.

Lemma dirname_aux_app_None (a b : string) :
  dirname_aux a = None -> dirname_aux b = None -> dirname_aux (a +:+ b) = None.
Proof.
  intros Ha Hb. induction a as [|c a IH]; [exact Hb|].
  apply dirname_aux_None_cons in Ha as [Ha Hc].
  rewrite append_cons. apply dirname_aux_None_cons. split; [by apply IH|exact Hc].
Qed.

Lemma dirname_aux_uint (d : Decimal.uint) :
  dirname_aux (NilEmpty.string_of_uint d) = None.
Proof.
  induction d; cbn [NilEmpty.string_of_uint]; [reflexivity|..];
    by apply dirname_aux_None_cons.
Qed.

(** The decimal text of an integer has no ['/'] in it. *)
Lemma dirname_aux_str_int (z : Z) : dirname_aux (str_int z) = None.
Proof.
  unfold str_int, NilZero.string_of_int.
  destruct (Z.to_int z) as [d|d]; unfold NilZero.string_of_uint.
  - destruct d; try apply dirname_aux_uint. reflexivity.
  - apply dirname_aux_None_cons. split; [|reflexivity].
    destruct d; try apply dirname_aux_uint. reflexivity.
Qed.

Lemma dirname_path_join (p f : string) :
  dirname_aux f = None -> dirname (path_join p f) = p.
Proof.
  intros Hf. unfold dirname, path_join.
  assert (H : dirname_aux (p +:+ "/" +:+ f) = Some p); [|by rewrite H].
  induction p as [|c p IH].
  - change ("" +:+ "/" +:+ f) with (String "/" f).
    cbn [dirname_aux]. by rewrite Hf.
  - rewrite append_cons. cbn [dirname_aux]. by rewrite IH.
Qed.

Lemma dirname_checkpoint_path (w : World) (args : Args) (k : nat) :
  dirname (checkpoint_path w args k) = model_save_path w args.
Proof.
  apply dirname_path_join.
  apply (dirname_aux_app_None "epoch_"); [reflexivity|].
  apply dirname_aux_app_None; [apply dirname_aux_str_int|reflexivity].
Qed.

Lemma path_join_nonempty (a b : string) :
  String.eqb (path_join a b) "" = false.
Proof. by destruct a. Qed.

Lemma epoch_Ok (w : World) (args : Args) (k : nat) (s : state) :
  epoch_body w k = None -> model_save_path w args ∈ fs s ->
  epoch w args k s
  = (Ok tt, mkState ({[ checkpoint_path w args k ]} ∪ fs s) (stdout s)).
Proof.
  intros Hk Hdir. unfold epoch. rewrite Hk. cbn [external].
  rewrite (bind_Ok _ _ s s tt) by reflexivity.
  fold (checkpoint_path w args k). unfold open_w, dir_exists.
  unfold checkpoint_path at 1. rewrite path_join_nonempty.
  rewrite dirname_checkpoint_path, bool_decide_eq_true_2 by exact Hdir.
  by rewrite orb_true_r.
Qed.

Lemma epoch_Raise (w : World) (args : Args) (k : nat) (s : state) (e : pyexn) :
  epoch_body w k = Some e -> epoch w args k s = (Raise e, s).
Proof. intros Hk. unfold epoch. by rewrite Hk. Qed.

Lemma for_each_app {A : Type} (l1 l2 : list A) (body : A -> M unit) (s : state) :
  for_each (l1 ++ l2) body s
  = bind (for_each l1 body) (fun _ => for_each l2 body) s.
Proof.
  revert s. induction l1 as [|a l1 IH]; intros s; [reflexivity|].
  cbn [app for_each]. unfold bind in *.
  destruct (body a s) as [[[]|e] s1]; [|reflexivity].
  apply IH.
Qed.

(** The epochs of the list [l] when none of them raises: one checkpoint
    each, and nothing printed. *)
Lemma for_each_epoch_Ok (w : World) (args : Args) (l : list nat) (s : state) :
  (forall k, k ∈ l -> epoch_body w k = None) ->
  model_save_path w args ∈ fs s ->
  exists s' : state,
    for_each l (epoch w args) s = (Ok tt, s') /\
    stdout s' = stdout s /\
    forall q : string,
      q ∈ fs s' <-> q ∈ fs s \/ exists k, k ∈ l /\ q = checkpoint_path w args k.
Proof.
  revert s. induction l as [|k l IH]; intros s Hall Hdir.
  - exists s. split; [reflexivity|]. split; [reflexivity|].
    intros q. split; [auto|]. intros [H|(k & Hk & _)]; [exact H|].
    by apply elem_of_nil in Hk.
  - cbn [for_each].
    rewrite (bind_Ok _ _ _ _ _ (epoch_Ok w args k s (Hall k ltac:(left)) Hdir)).
    destruct (IH (mkState ({[checkpoint_path w args k]} ∪ fs s) (stdout s)))
      as (s' & Hrun & Hout & Hfs).
    + intros j Hj. apply Hall. by right.
    + cbn [fs]. apply elem_of_union. by right.
    + exists s'. split; [exact Hrun|]. split; [exact Hout|].
      intros q. rewrite Hfs. cbn [fs].
      rewrite elem_of_union, elem_of_singleton. split.
      * intros [[->|H]|(j & Hj & ->)]; [right|by left|right].
        -- exists k. split; [left|reflexivity].
        -- exists j. split; [by right|reflexivity].
      * intros [H|(j & Hj & ->)]; [by left; right|].
        apply elem_of_cons in Hj as [->|Hj]; [by left; left|].
        right. by exists j.
Qed.

(** When no epoch raises, the run goes through the whole loop and ends with
    status 0: the handler prints nothing, nothing is deleted, and what the
    loop has added to the directory tree is one checkpoint
    [epoch_<k>.pth] in the run's model directory for each of the
    [num_epochs] epochs. *)
Theorem training_run_completes (w : World) (args : Args) (s s1 : state) :
  before_try w args s = (Ok tt, s1) ->
  (forall k : nat, (k < Z.to_nat (num_epochs args))%nat -> epoch_body w k = None) ->
  exists s2 : state,
    main w args s = (Ok tt, s2) /\
    exit_status (main w args s).1 = 0 /\
    stdout s2 = stdout s1 /\
    forall q : string,
      q ∈ fs s2 <->
      q ∈ fs s1 \/
      exists k : nat,
        (k < Z.to_nat (num_epochs args))%nat /\ q = checkpoint_path w args k.
Proof.
  intros Hpre Hall.
  destruct (before_try_Ok _ _ _ _ Hpre) as [Hdir _].
  destruct (for_each_epoch_Ok w args (py_range (num_epochs args)) s1)
    as (s2 & Hrun & Hout & Hfs); [|exact Hdir|].
  { intros k Hk. apply Hall. unfold py_range in Hk.
    apply elem_of_seq in Hk. lia. }
  assert (Hmain : main w args s = (Ok tt, s2)).
  { unfold main. rewrite (bind_Ok _ _ _ _ _ Hpre).
    unfold try_except, epoch_loop. by rewrite Hrun. }
  exists s2. rewrite Hmain. split; [reflexivity|]. split; [reflexivity|].
  split; [exact Hout|]. intros q. rewrite Hfs. unfold py_range.
  split; (intros [H|(k & Hk & ->)]; [by left|right; exists k]);
    (split; [|reflexivity]); [apply elem_of_seq in Hk|apply elem_of_seq]; lia.
Qed.

Lemma training_run_completes_witness :
  exists s2 : state,
    main quiet_world two_epochs_args empty_state = (Ok tt, s2) /\
    exit_status (main quiet_world two_epochs_args empty_state).1 = 0 /\
    stdout s2
    = stdout (before_try quiet_world two_epochs_args empty_state).2 /\
    forall q : string,
      q ∈ fs s2 <->
      q ∈ fs (before_try quiet_world two_epochs_args empty_state).2 \/
      exists k : nat,
        (k < Z.to_nat (num_epochs two_epochs_args))%nat /\
        q = checkpoint_path quiet_world two_epochs_args k.
Proof.
  apply (training_run_completes quiet_world two_epochs_args empty_state).
  - vm_compute. reflexivity.
  - intros k _. reflexivity.
Defined.

Lemma py_range_split (n : Z) (k : nat) :
  (k < Z.to_nat n)%nat ->
  py_range n = seq 0 k ++ k :: seq (S k) (Z.to_nat n - S k).
Proof.
  intros Hk. unfold py_range.
  replace (Z.to_nat n) with (k + S (Z.to_nat n - S k))%nat at 1 by lia.
  rewrite seq_app. reflexivity.
Qed.

(** The loop stops at the first epoch that raises: the epochs before it
    have left their checkpoints, the exception of that epoch escapes the
    loop, and no later epoch is run, whatever it would have done. *)
Theorem epoch_loop_first_failure
    (w : World) (args : Args) (s : state) (k : nat) (e : pyexn) :
  model_save_path w args ∈ fs s ->
  (k < Z.to_nat (num_epochs args))%nat ->
  (forall j : nat, (j < k)%nat -> epoch_body w j = None) ->
  epoch_body w k = Some e ->
  exists s' : state,
    epoch_loop w args s = (Raise e, s') /\
    stdout s' = stdout s /\
    forall q : string,
      q ∈ fs s' <->
      q ∈ fs s \/ exists j : nat, (j < k)%nat /\ q = checkpoint_path w args j.
Proof.
  intros Hdir Hk Hbefore Hfail.
  destruct (for_each_epoch_Ok w args (seq 0 k) s) as (s' & Hrun & Hout & Hfs);
    [|exact Hdir|].
  { intros j Hj. apply Hbefore. apply elem_of_seq in Hj. lia. }
  exists s'. split; [|split; [exact Hout|]].
  - unfold epoch_loop. rewrite (py_range_split _ k Hk), for_each_app.
    rewrite (bind_Ok _ _ _ _ _ Hrun). cbn [for_each].
    apply bind_Raise. by apply epoch_Raise.
  - intros q. rewrite Hfs.
    split; (intros [H|(j & Hj & ->)]; [by left|right; exists j]);
      (split; [|reflexivity]); [apply elem_of_seq in Hj|apply elem_of_seq]; lia.
Qed.

Lemma epoch_loop_first_failure_witness :
  exists s' : state,
    epoch_loop second_epoch_fails default_args
      (before_try second_epoch_fails default_args empty_state).2
    = (Raise (OtherError "RuntimeError"), s') /\
    stdout s' = stdout (before_try second_epoch_fails default_args empty_state).2 /\
    forall q : string,
      q ∈ fs s' <->
      q ∈ fs (before_try second_epoch_fails default_args empty_state).2 \/
      exists j : nat,
        (j < 1)%nat /\ q = checkpoint_path second_epoch_fails default_args j.
Proof.
  apply (epoch_loop_first_failure second_epoch_fails default_args
           (before_try second_epoch_fails default_args empty_state).2 1).
  - apply (bool_decide_unpack _). vm_compute. exact I.
  - vm_compute. lia.
  - intros j Hj. destruct j; [reflexivity|lia].
  - reflexivity.
Defined.

Lemma grows_after_setup (w : World) (args : Args) :
  grows (build w args ;; eval_mode w args ;; start_training w args).
Proof.
  apply grows_bind; [apply keeps_fs_grows, keeps_fs_build | intros _].
  apply grows_bind; [apply grows_eval_mode | intros _].
  apply grows_start_training.
Qed.

(** The clean-up covers the epoch loop only. An exception that escapes
    after the setup and before the loop (from the construction of a data
    set or of the model, from the loading of a checkpoint, from an assertion
    of the evaluation branch, or the [SystemExit] that ends an evaluation
    run) leaves the script at once, and the run's model directory and
    everything else that existed stays. *)
Theorem failure_before_loop_keeps_run_dir
    (w : World) (args : Args) (s s0 s' : state) (e : pyexn) :
  setup w args s = (Ok tt, s0) ->
  before_try w args s = (Raise e, s') ->
  main w args s = (Raise e, s') /\
  model_save_path w args ∈ fs s' /\
  forall q : string, q ∈ fs s0 -> q ∈ fs s'.
Proof.
  intros Hsetup Hpre.
  split; [unfold main; by apply bind_Raise|].
  unfold before_try in Hpre. rewrite (bind_Ok _ _ _ _ _ Hsetup) in Hpre.
  pose proof (grows_after_setup w args s0) as Hg. rewrite Hpre in Hg.
  split; [apply Hg; by apply (setup_Ok w args s)|exact Hg].
Qed.

Lemma failure_before_loop_keeps_run_dir_witness :
  main quiet_world unknown_model_args empty_state
  = (Raise (NameError "model_cls"),
     (before_try quiet_world unknown_model_args empty_state).2) /\
  model_save_path quiet_world unknown_model_args
    ∈ fs (before_try quiet_world unknown_model_args empty_state).2 /\
  forall q : string,
    q ∈ fs (setup quiet_world unknown_model_args empty_state).2 ->
    q ∈ fs (before_try quiet_world unknown_model_args empty_state).2.
Proof.
  apply (failure_before_loop_keeps_run_dir quiet_world unknown_model_args
           empty_state (setup quiet_world unknown_model_args empty_state).2).
  - vm_compute. reflexivity.
  - vm_compute. reflexivity.
Defined.



Lemma build_skips_load (w : World) (args : Args) (s : state)
    (f g : string -> option pyexn) :
  truthy (model_path args) = false ->
  build (with_load_checkpoint w f) args s
  = build (with_load_checkpoint w g) args s.
Proof.
  intros Hp. unfold build.
  destruct (model_path args) as [p|]; [|reflexivity].
  rewrite Hp. reflexivity.
Qed.

(** When [--model_path] is absent or the empty string, no checkpoint is
    loaded: the run is the same whatever the loading would have done. The
    assertion of line 268 only asks for a path that is not [None], so an
    evaluation run with the empty string as path scores a model into which
    nothing was loaded. *)
Theorem empty_model_path_loads_nothing (w : World) (args : Args) (s : state)
    (f g : string -> option pyexn) :
  truthy (model_path args) = false ->
  main (with_load_checkpoint w f) args s
  = main (with_load_checkpoint w g) args s /\
  (model_path args = Some "" -> is_not_None (model_path args) = true).
Proof.
  intros Hp. split; [|by intros ->].
  unfold main, before_try, bind.
  change (setup (with_load_checkpoint w f) args s) with (setup w args s).
  change (setup (with_load_checkpoint w g) args s) with (setup w args s).
  destruct (setup w args s) as [[[]|e] s0]; [|reflexivity].
  rewrite (build_skips_load w args s0 f g Hp). reflexivity.
Qed.

Lemma empty_model_path_loads_nothing_witness :
  main (with_load_checkpoint quiet_world (fun _ => None))
       eval_empty_path_args empty_state
  = main (with_load_checkpoint quiet_world
            (fun p => Some (FileNotFoundError p)))
         eval_empty_path_args empty_state /\
  (model_path eval_empty_path_args = Some "" ->
   is_not_None (model_path eval_empty_path_args) = true).
Proof.
  apply (empty_model_path_loads_nothing quiet_world eval_empty_path_args
           empty_state). reflexivity.
Defined.

Example eval_empty_path_run :
  (main quiet_world eval_empty_path_args empty_state).1 = Raise (SystemExit 0) /\
  stdout (main quiet_world eval_empty_path_args empty_state).2
  = ["cpu"; "Namespace"; "Result saved to scores.txt"].
Proof. split; vm_compute; reflexivity. Qed.

(** ** The sample transform and [get_log_spectrum] *)

Lemma pad_default_Ok (x y : list Q) :
  pad x default_max_len = Ok y -> x <> [] /\ Z.of_nat (length y) = 64000.
Proof.
  intros Hpad. split.
  - intros ->. discriminate Hpad.
  - apply (pad_Ok_length x y default_max_len); [|exact Hpad].
    unfold default_max_len. lia.
Qed.

(** Whenever the sample transform returns, the waveform was not empty,
    [normalize] was handed exactly 64000 samples, the 64000 [pad] returns,
    and the result is the feature map of the normalized waveform three
    times, one copy per channel. *)
Theorem sample_transform_Ok (lib : Librosa) (sig : Signal) (f : feature_fn)
    (x : list Q) (channels : list matrix) :
  sample_transform lib sig f x = Ok channels ->
  exists (y z : list Q) (m : matrix),
    x <> [] /\
    pad x default_max_len = Ok y /\ Z.of_nat (length y) = 64000 /\
    util_normalize sig y = Ok z /\
    call_feature_fn lib sig f z = Ok m /\
    channels = [m; m; m].
Proof.
  unfold sample_transform. intros H.
  destruct (pad x default_max_len) as [y|e] eqn:Hpad; [|discriminate H].
  cbn [rbind] in H.
  destruct (util_normalize sig y) as [z|e] eqn:Hnorm; [|discriminate H].
  cbn [rbind] in H.
  destruct (call_feature_fn lib sig f z) as [m|e] eqn:Hfeat; [|discriminate H].
  cbn [rbind] in H. injection H as <-.
  destruct (pad_default_Ok x y Hpad) as [Hne Hlen].
  by exists y, z, m.
Qed.

Lemma sample_transform_Ok_witness :
  exists (y z : list Q) (m : matrix),
    [1; 2; 3]%Q <> [] /\
    pad [1; 2; 3]%Q default_max_len = Ok y /\ Z.of_nat (length y) = 64000 /\
    util_normalize toy_signal y = Ok z /\
    call_feature_fn toy_librosa toy_signal get_log_spectrum_fn z = Ok m /\
    [[[(3 * 3 + 4 * 4)%Q]]; [[(3 * 3 + 4 * 4)%Q]]; [[(3 * 3 + 4 * 4)%Q]]]
    = [m; m; m].
Proof.
  apply (sample_transform_Ok toy_librosa toy_signal get_log_spectrum_fn
           [1; 2; 3]%Q).
  vm_compute. reflexivity.
Defined.

(** With the features set to [cqcc] the name [feature_fn] is bound to
    [None], and the sample transform never returns: what escapes is the
    exception of [pad] or of [normalize] when one of them raises, and the
    [TypeError] of the call of [feature_fn] otherwise. *)
Theorem sample_transform_cqcc_raises (lib : Librosa) (sig : Signal)
    (x : list Q) :
  select_feature_fn "cqcc" = Some no_feature_fn /\
  match sample_transform lib sig no_feature_fn x with
  | Ok _ => False
  | Raise e =>
      match pad x default_max_len with
      | Raise e' => e = e'
      | Ok y =>
          match util_normalize sig y with
          | Raise e' => e = e'
          | Ok _ => e = OtherError "TypeError"
          end
      end
  end.
Proof.
  split; [reflexivity|]. unfold sample_transform.
  destruct (pad x default_max_len) as [y|e]; [|reflexivity].
  cbn [rbind]. destruct (util_normalize sig y) as [z|e]; reflexivity.
Qed.

Lemma abs_squared_nonneg (s : list (list (Q * Q))) :
  Forall (Forall (fun v => (0 <= v)%Q)) (abs_squared s).
Proof.
  unfold abs_squared. apply Forall_fmap, Forall_forall. intros row _.
  apply Forall_fmap, Forall_forall. intros [re im] _. cbn [fst snd].
  unfold Qle, Qplus, Qmult. simpl. nia.
Qed.

(** Whenever [get_log_spectrum] returns, what it handed to the conversion
    to decibels is the squared magnitude of the transform with the window
    and FFT size 2048 and the hop 512: an array of the shape of the
    transform, with no negative entry. *)
Theorem get_log_spectrum_power (sig : Signal) (x : list Q) (feat : matrix) :
  get_log_spectrum sig x = Ok feat ->
  exists s : list (list (Q * Q)),
    core_stft sig x 2048 2048 512 = Ok s /\
    power_to_db sig (abs_squared s) = Ok feat /\
    map length (abs_squared s) = map length s /\
    Forall (Forall (fun v => (0 <= v)%Q)) (abs_squared s).
Proof.
  unfold get_log_spectrum. intros H.
  destruct (core_stft sig x 2048 2048 512) as [s|e]; [|discriminate H].
  cbn [rbind] in H.
  destruct (power_to_db sig (abs_squared s)) as [a|e] eqn:Hdb; [|discriminate H].
  injection H as <-. exists s.
  split; [reflexivity|]. split; [exact Hdb|]. split; [|apply abs_squared_nonneg].
  unfold abs_squared. rewrite map_map. apply map_ext. intros row.
  apply length_map.
Qed.

Lemma get_log_spectrum_power_witness :
  exists s : list (list (Q * Q)),
    core_stft toy_signal [1; 2; 3]%Q 2048 2048 512 = Ok s /\
    power_to_db toy_signal (abs_squared s) = Ok [[(3 * 3 + 4 * 4)%Q]] /\
    map length (abs_squared s) = map length s /\
    Forall (Forall (fun v => (0 <= v)%Q)) (abs_squared s).
Proof.
  apply (get_log_spectrum_power toy_signal [1; 2; 3]%Q). reflexivity.
Defined.

(** ** [get_logger] *)

Lemma level_dict_lookup (v : Z) :
  level_dict !! v
  = if v =? 0 then Some 10 else if v =? 1 then Some 20
    else if v =? 2 then Some 30 else None.
Proof.
  unfold level_dict.
  destruct (Z.eqb_spec v 0) as [->|H0]; [by rewrite lookup_insert_eq|].
  rewrite lookup_insert_ne by congruence.
  destruct (Z.eqb_spec v 1) as [->|H1]; [by rewrite lookup_insert_eq|].
  rewrite lookup_insert_ne by congruence.
  destruct (Z.eqb_spec v 2) as [->|H2]; [by rewrite lookup_insert_eq|].
  rewrite lookup_insert_ne by congruence. apply lookup_empty.
Qed.

Lemma getLogger_put (name name' : option string) (l : logger) (st : log_state) :
  getLogger name' (put_logger name l st)
  = if decide (name = name') then l else getLogger name' st.
Proof.
  unfold getLogger, put_logger. cbn [loggers].
  destruct (decide (name = name')) as [->|Hne].
  - by rewrite lookup_insert_eq.
  - by rewrite lookup_insert_ne.
Qed.

(** A verbosity other than 0, 1 and 2 makes [get_logger] fail with the
    [KeyError] of the dictionary lookup of line 39: no file has been opened
    and no logger has got a level or a handler by then. *)
Theorem get_logger_bad_verbosity (filename : string) (verbosity : Z)
    (name : option string) (st : log_state) :
  ~ (0 <= verbosity <= 2) ->
  (get_logger filename verbosity name st).1 = Raise KeyError /\
  log_fs (get_logger filename verbosity name st).2 = log_fs st /\
  forall name' : option string,
    getLogger name' (get_logger filename verbosity name st).2
    = getLogger name' st.
Proof.
  intros Hv. unfold get_logger. rewrite level_dict_lookup.
  destruct (Z.eqb_spec verbosity 0) as [?|_]; [lia|].
  destruct (Z.eqb_spec verbosity 1) as [?|_]; [lia|].
  destruct (Z.eqb_spec verbosity 2) as [?|_]; [lia|].
  cbn [fst snd]. split; [reflexivity|]. split; [reflexivity|].
  intros name'. rewrite getLogger_put.
  destruct (decide (name = name')) as [->|_]; reflexivity.
Qed.

Lemma get_logger_bad_verbosity_witness :
  (get_logger "logs/run/logger.log" 3 None no_loggers).1 = Raise KeyError /\
  log_fs (get_logger "logs/run/logger.log" 3 None no_loggers).2
  = log_fs no_loggers /\
  forall name' : option string,
    getLogger name' (get_logger "logs/run/logger.log" 3 None no_loggers).2
    = getLogger name' no_loggers.
Proof.
  apply (get_logger_bad_verbosity "logs/run/logger.log" 3 None no_loggers). lia.
Defined.







(** Once the script has got to the epoch loop it ends with status 0,
    whether the loop went through or an exception was raised in it: the
    exit status does not tell a failed training from a completed one. *)
Theorem exit_status_after_loop (w : World) (args : Args) (s s1 : state) :
  before_try w args s = (Ok tt, s1) ->
  (main w args s).1 = Ok tt /\ exit_status (main w args s).1 = 0.
Proof.
  intros Hpre. destruct (before_try_Ok _ _ _ _ Hpre) as [HM HL].
  assert (Hmain : (main w args s).1 = Ok tt); [|by rewrite Hmain].
  unfold main. rewrite (bind_Ok _ _ _ _ _ Hpre). unfold try_except.
  pose proof (grows_epoch_loop w args s1) as Hg.
  destruct (epoch_loop w args s1) as [[[]|e] s2]; [reflexivity|].
  rewrite (handler_run w args s2 (Hg _ HL) (Hg _ HM)). reflexivity.
Qed.

Lemma exit_status_after_loop_witness :
  (main second_epoch_fails default_args empty_state).1 = Ok tt /\
  exit_status (main second_epoch_fails default_args empty_state).1 = 0.
Proof.
  apply (exit_status_after_loop second_epoch_fails default_args empty_state
           (before_try second_epoch_fails default_args empty_state).2).
  vm_compute. reflexivity.
Defined.
